(** * BpfHandler: socket tagging, quota admission and platform gating

    A shallow embedding of [netd/BpfHandler.cpp]: the platform gate of
    [initPrograms], the delegation gate [hasUpdateDeviceStatsPermission], and
    the two socket operations [tagSocket] and [untagSocket], followed by the
    properties of the design document that concern them.

    Integers of the source ([int], [uint32_t], [uint64_t], [uid_t]) are
    values of [Z]; the only arithmetic that can wrap, the two 32-bit entry
    counters of the quota scan, has its wrap-around written out. *)

From Stdlib Require Import ZArith Lia.
From stdpp Require Import gmap strings list fin_maps.

Local Open Scope Z_scope.

(** ** Constants of the included headers

    [BpfHandler.cpp] names these constants but does not define them: they
    come from [<errno.h>], [<sys/socket.h>], [<linux/bpf.h>],
    [private/android_filesystem_config.h], [netdutils/UidConstants.h] and the
    shared map declarations.  They are kept as the fields of a class, so that
    every statement below holds for whatever values the headers give them;
    [android] is the instance with the values of the Android headers. *)

Class Abi := {
  EPERM : Z;
  ENOENT : Z;
  EBADF : Z;
  EINVAL : Z;
  EMFILE : Z;
  E2BIG : Z;
  EPROTONOSUPPORT : Z;
  EAFNOSUPPORT : Z;
  SOL_SOCKET : Z;
  SO_DOMAIN : Z;
  SO_PROTOCOL : Z;
  AF_INET : Z;
  AF_INET6 : Z;
  IPPROTO_TCP : Z;
  IPPROTO_UDP : Z;
  AID_ROOT : Z;
  AID_SYSTEM : Z;
  AID_DNS : Z;
  AID_CLAT : Z;
  PER_USER_RANGE : Z;
  BPF_PERMISSION_UPDATE_DEVICE_STATS : Z;
  CURRENT_STATS_MAP_CONFIGURATION_KEY : Z;
  SELECT_MAP_A : Z;
  SELECT_MAP_B : Z;
  (* [STATS_MAP_SIZE * 0.9] as an [int]; [STATS_MAP_SIZE] is not in the file *)
  TOTAL_UID_STATS_ENTRIES_LIMIT : Z
}.

Definition android : Abi := {|
  EPERM := 1;
  ENOENT := 2;
  EBADF := 9;
  EINVAL := 22;
  EMFILE := 24;
  E2BIG := 7;
  EPROTONOSUPPORT := 93;
  EAFNOSUPPORT := 97;
  SOL_SOCKET := 1;
  SO_DOMAIN := 39;
  SO_PROTOCOL := 38;
  AF_INET := 2;
  AF_INET6 := 10;
  IPPROTO_TCP := 6;
  IPPROTO_UDP := 17;
  AID_ROOT := 0;
  AID_SYSTEM := 1000;
  AID_DNS := 1051;
  AID_CLAT := 1029;
  PER_USER_RANGE := 100000;
  BPF_PERMISSION_UPDATE_DEVICE_STATS := 8;
  CURRENT_STATS_MAP_CONFIGURATION_KEY := 1;
  SELECT_MAP_A := 0;
  SELECT_MAP_B := 1;
  TOTAL_UID_STATS_ENTRIES_LIMIT := 4500
|}.

(** [constexpr int PER_UID_STATS_ENTRIES_LIMIT = 500;] *)
Definition PER_UID_STATS_ENTRIES_LIMIT : Z := 500.

(** The error numbers the source negates into return codes are positive, as
    POSIX requires of every [errno] value. *)
Definition errno_positive (K : Abi) : Prop :=
  0 < EPERM ∧ 0 < ENOENT ∧ 0 < EBADF ∧ 0 < EINVAL ∧ 0 < EMFILE ∧
  0 < EPROTONOSUPPORT ∧ 0 < EAFNOSUPPORT ∧ 0 < E2BIG.

(** ** Results and unsigned arithmetic *)

(** [base::Result<T>]: a value, or an error that carries an [errno] code. *)
Inductive Result (A : Type) : Type :=
  | Ok (a : A)
  | Error (code : Z).
Arguments Ok {A} a.
Arguments Error {A} code.

Definition uint32_t (x : Z) : Z := x mod 2 ^ 32.

(** [c++] on a [uint32_t]. *)
Definition incr32 (c : Z) : Z := uint32_t (c + 1).

(** ** Key and value shapes of the tables *)

Module UidTagValue.
Record t : Type := mk { uid : Z; tag : Z }.
End UidTagValue.

(** Modelled from the spec: the declaration of [StatsKey] is not in the
  source file; the design document gives the key of a counting map as
  [{uid, tag, metadata}] and its value as counters.  The source reads
  [key.uid] only. *)
Module StatsKey.
Record t : Type := mk { uid : Z; tag : Z; metadata : Z }.

Definition to_tuple (k : t) : Z * Z * Z := (uid k, tag k, metadata k).
Definition of_tuple (p : Z * Z * Z) : t := mk p.1.1 p.1.2 p.2.

#[global] Instance eq_dec : EqDecision t.
Proof. solve_decision. Defined.

#[global] Instance countable : Countable t.
Proof.
  refine (inj_countable' to_tuple of_tuple _).
  intros []; reflexivity.
Defined.
End StatsKey.

Module StatsValue.
Record t : Type := mk { counters : list Z }.
End StatsValue.

(** ** The typed table abstraction *)

(** Modelled from the spec: [BpfMap.h] is not in the source file.  The design
    document describes the tables as a typed key-value abstraction with get,
    scan, upsert and delete, any of which may fail when the backing table is
    unusable, and the attribution table as a bounded store.  A table is its
    descriptor state ([isValid]), the error every operation on it currently
    meets, if any ([failure]), the number of entries it can hold
    ([max_entries]), and its entries. *)
Record BpfMap (K V : Type) `{Countable K} : Type := mkBpfMap {
isValid : bool;
failure : option Z;
max_entries : N;
entries : gmap K V
}.
Arguments mkBpfMap {K V _ _} _ _ _ _.
Arguments isValid {K V _ _} _.
Arguments failure {K V _ _} _.
Arguments max_entries {K V _ _} _.
Arguments entries {K V _ _} _.

Section Tables.
Context `{K : Abi}.
Context {Key V : Type} `{Countable Key}.

(** Modelled from the spec: the error an operation on an unusable table
    meets before it looks at any key, [EBADF] on a descriptor that was never
    opened, otherwise the table's own failure. *)
Definition refusal (m : BpfMap Key V) : option Z :=
  if isValid m then failure m else Some EBADF.

Definition usable (m : BpfMap Key V) : Prop :=
  isValid m = true ∧ failure m = None.

(** Modelled from the spec: the typed get.  It fails on an unusable table,
    and on a key that has no entry, which is what the [ok()] tests of the
    source guard against. *)
Definition readValue (m : BpfMap Key V) (k : Key) : Result V :=
  match refusal m with
  | Some e => Error e
  | None =>
      match entries m !! k with
      | Some v => Ok v
      | None => Error ENOENT
      end
  end.

(** The table is full and [k] is not one of its keys: there is no room to
    store an entry under [k]. *)
Definition noRoomFor (m : BpfMap Key V) (k : Key) : bool :=
  bool_decide (entries m !! k = None) &&
  (max_entries m <=? N.of_nat (size (entries m)))%N.

(** Modelled from the spec: the typed upsert,
    [writeValue(key, value, BPF_ANY)], with insert-or-update semantics on a
    bounded store.  The value of a key that has an entry is replaced; a new
    key is added while the table has room and refused with [E2BIG] once it
    is full.  A refused write leaves the table as it was. *)
Definition writeValue (m : BpfMap Key V) (k : Key) (v : V)
  : Result unit * BpfMap Key V :=
  match refusal m with
  | Some e => (Error e, m)
  | None =>
      if noRoomFor m k then (Error E2BIG, m)
      else (Ok tt, mkBpfMap (isValid m) (failure m) (max_entries m)
                     (<[k:=v]> (entries m)))
  end.

(** [BpfMap::deleteValue] is not in the source file.  It asks the kernel to
    delete one element and hands back its answer: as with the get, a key
    that has no entry is answered with [ENOENT], and a failed delete changes
    nothing. *)
Definition deleteValue (m : BpfMap Key V) (k : Key)
  : Result unit * BpfMap Key V :=
  match refusal m with
  | Some e => (Error e, m)
  | None =>
      match entries m !! k with
      | Some _ =>
          (Ok tt, mkBpfMap (isValid m) (failure m) (max_entries m)
                    (delete k (entries m)))
      | None => (Error ENOENT, m)
      end
  end.

(** One step of [iterate]: the callback is applied to the next key unless
    an earlier call already failed. *)
Definition visit {S : Type} (f : Key → S → Result S)
    (acc : Result S) (kv : Key * V) : Result S :=
  match acc with
  | Ok s => f kv.1 s
  | Error e => Error e
  end.

(** Modelled from the spec: the typed scan, [iterate(filter)], which calls
    [filter] on every key of the table.  The state [S] stands for the
    variables the callback captures by reference. *)
Definition iterate {S : Type} (m : BpfMap Key V)
    (f : Key → S → Result S) (s : S) : Result S :=
  match refusal m with
  | Some e => Error e
  | None => foldl (visit f) (Ok s) (map_to_list (entries m))
  end.
End Tables.

(** ** The handler and the kernel it talks to *)

Record BpfHandler : Type := mkBpfHandler {
  mPerUidStatsEntriesLimit : Z;
  mTotalUidStatsEntriesLimit : Z;
  mStatsMapA : BpfMap StatsKey.t StatsValue.t;
  mStatsMapB : BpfMap StatsKey.t StatsValue.t;
  mConfigurationMap : BpfMap Z Z;
  mUidPermissionMap : BpfMap Z Z;
  mCookieTagMap : BpfMap Z UidTagValue.t
}.

(** What the kernel answers about a descriptor.  [getsockopt fd level name]
    is [Ok v] when the call returns 0 and stores [v], and [Error e] when it
    returns non-zero; [e] is then the value of [errno] that the following
    [return -errno;] reads (the logging call in between is taken to leave
    [errno] alone).  [bpf::getSocketCookie] is not in the source file:
    [getSocketCookie fd] is the pair of the cookie it returns and the value
    [errno] holds once it has returned, which is all [tagSocket] and
    [untagSocket] look at. *)
Record Kernel : Type := mkKernel {
  getsockopt : Z → Z → Z → Result Z;
  getSocketCookie : Z → Z * Z
}.


(** ** Calls that may return early

    A method of the handler runs against the handler's state and either
    leaves through a [return] statement with an [int] (the left summand) or
    goes on with a value. *)

Definition Call (A : Type) : Type := BpfHandler → (Z + A) * BpfHandler.

Definition ret {A : Type} (a : A) : Call A := λ bh, (inr a, bh).

(** A [return code;] statement: the rest of the method is skipped. *)
Definition Return {A : Type} (code : Z) : Call A := λ bh, (inl code, bh).

Definition bind {A B : Type} (c : Call A) (k : A → Call B) : Call B :=
  λ bh,
    match c bh with
    | (inl code, bh') => (inl code, bh')
    | (inr a, bh') => k a bh'
    end.

Definition this : Call BpfHandler := λ bh, (inr bh, bh).

(** [if (cond) return code;] *)
Definition returnIf (cond : bool) (code : Z) : Call unit :=
  if cond then Return code else ret tt.

(** [if (!res.ok()) return -res.error().code();], and the same shape for a
    system call that failed: [return -errno;]. *)
Definition orReturn {A : Type} (res : Result A) : Call A :=
  match res with
  | Ok a => ret a
  | Error e => Return (- e)
  end.

(** The value of the whole call, whichever way it was left. *)
Definition run (c : Call Z) (bh : BpfHandler) : Z * BpfHandler :=
  match c bh with
  | (inl code, bh') => (code, bh')
  | (inr code, bh') => (code, bh')
  end.

Declare Scope call_scope.
Delimit Scope call_scope with call.
Notation "x <- c ;; k" := (bind c (λ x, k))
  (at level 100, c at next level, right associativity) : call_scope.
Notation "c ;; k" := (bind c (λ _, k))
  (at level 100, right associativity) : call_scope.

(** ** The platform gate of [initPrograms] *)

(** [netdutils::Status]: [status::ok], a failure with a message, or a failure
    made from an [errno] value and a message. *)
Inductive Status : Type :=
  | status_ok
  | StatusMsg (msg : string)
  | statusFromErrno (err : Z) (msg : string).

(** The facts [initPrograms] asks of the platform.  The functions behind them
    ([modules::sdklevel], [bpf::isAtLeastKernelVersion], [bpf::isKernel32Bit],
    [bpf::isUserspace32bit]) are not in the source file; a device is whatever
    they answer. *)
Record Device : Type := mkDevice {
  IsAtLeastT : bool;
  IsAtLeastU : bool;
  IsAtLeastV : bool;
  isAtLeastKernelVersion : Z → Z → Z → bool;
  isKernel32Bit : bool;
  isUserspace32bit : bool
}.

(** [!!strcmp(cg2_path, s)] *)
Definition strcmp_differs (a b : string) : bool := negb (String.eqb a b).

Section InitPrograms.
(** Lines 118 to 167 of [initPrograms], opening the directory and attaching
    the programs, which run once every check has passed. *)
Variable attachPrograms : string → Status.

Definition initPrograms (dev : Device) (cg2_path : option string) : Status :=
  match cg2_path with
  | None => StatusMsg "cg2_path is NULL"
  | Some path =>
      if negb (IsAtLeastT dev) then StatusMsg "S- platform is unsupported" else
      if negb (isAtLeastKernelVersion dev 4 9 0) then
        StatusMsg "kernel version < 4.9.0 is unsupported" else
      if IsAtLeastU dev && negb (isAtLeastKernelVersion dev 4 14 0) then
        StatusMsg "U+ platform with kernel version < 4.14.0 is unsupported" else
      if IsAtLeastV dev && negb (isAtLeastKernelVersion dev 4 19 0) then
        StatusMsg "V+ platform with kernel version < 4.19.0 is unsupported" else
      if IsAtLeastV dev && (isKernel32Bit dev && isAtLeastKernelVersion dev 5 16 0) then
        StatusMsg "V+ platform with 32 bit kernel, version >= 5.16.0 is unsupported" else
      if isUserspace32bit dev && isAtLeastKernelVersion dev 6 2 0 then
        StatusMsg "32 bit userspace with Kernel version >= 6.2.0 is unsupported" else
      if IsAtLeastU dev && strcmp_differs path "/sys/fs/cgroup" then
        StatusMsg "U+ platform with cg2_path != /sys/fs/cgroup is unsupported" else
      attachPrograms path
  end.
End InitPrograms.

(** ** The delegation gate and the two socket operations *)

Section Handler.
Context `{K : Abi}.

(** [BpfHandler::BpfHandler(uint32_t perUidLimit, uint32_t totalLimit)];
    the tables are the ones [initMaps] opened. *)
Definition BpfHandler_new (perUidLimit totalLimit : Z)
    (statsA statsB : BpfMap StatsKey.t StatsValue.t)
    (configuration permissions : BpfMap Z Z)
    (cookieTag : BpfMap Z UidTagValue.t) : BpfHandler :=
  mkBpfHandler perUidLimit totalLimit statsA statsB configuration permissions
    cookieTag.

(** [BpfHandler::BpfHandler()] *)
Definition BpfHandler_default :=
  BpfHandler_new PER_UID_STATS_ENTRIES_LIMIT TOTAL_UID_STATS_ENTRIES_LIMIT.

Definition hasUpdateDeviceStatsPermission (bh : BpfHandler) (uid : Z) : bool :=
  let appId := uid mod PER_USER_RANGE in
  let permission := readValue (mUidPermissionMap bh) appId in
  if match permission with
     | Ok value => negb (Z.land value BPF_PERMISSION_UPDATE_DEVICE_STATS =? 0)
     | Error _ => false
     end
  then true
  else (appId =? AID_ROOT) || (appId =? AID_SYSTEM) || (appId =? AID_DNS).

(** The lambda [countUidStatsEntries]; the pair is
    [(totalEntryCount, perUidEntryCount)], both captured by reference. *)
Definition countUidStatsEntries (chargeUid : Z) (key : StatsKey.t)
    (counts : Z * Z) : Result (Z * Z) :=
  let '(totalEntryCount, perUidEntryCount) := counts in
  let perUidEntryCount :=
    if StatsKey.uid key =? chargeUid then incr32 perUidEntryCount
    else perUidEntryCount in
  Ok (incr32 totalEntryCount, perUidEntryCount).

(** [mCookieTagMap.writeValue(sock_cookie, newKey, BPF_ANY)] on the handler. *)
Definition writeCookieTag (cookie : Z) (v : UidTagValue.t)
  : Call (Result unit) :=
  λ bh,
    let '(res, m) := writeValue (mCookieTagMap bh) cookie v in
    (inr res,
     mkBpfHandler (mPerUidStatsEntriesLimit bh) (mTotalUidStatsEntriesLimit bh)
       (mStatsMapA bh) (mStatsMapB bh) (mConfigurationMap bh)
       (mUidPermissionMap bh) m).

(** [mCookieTagMap.deleteValue(sock_cookie)] on the handler. *)
Definition deleteCookieTag (cookie : Z) : Call (Result unit) :=
  λ bh,
    let '(res, m) := deleteValue (mCookieTagMap bh) cookie in
    (inr res,
     mkBpfHandler (mPerUidStatsEntriesLimit bh) (mTotalUidStatsEntriesLimit bh)
       (mStatsMapA bh) (mStatsMapB bh) (mConfigurationMap bh)
       (mUidPermissionMap bh) m).

Local Open Scope call_scope.

Definition tagSocket_body (k : Kernel) (sockFd tag chargeUid realUid : Z)
  : Call Z :=
  bh <- this ;;
  returnIf (negb (isValid (mCookieTagMap bh))) (- EPERM) ;;
  returnIf (negb (chargeUid =? realUid) &&
            negb (hasUpdateDeviceStatsPermission bh realUid)) (- EPERM) ;;
  returnIf (chargeUid =? AID_CLAT) (- EPERM) ;;
  socketFamily <- orReturn (getsockopt k sockFd SOL_SOCKET SO_DOMAIN) ;;
  returnIf (negb (socketFamily =? AF_INET) && negb (socketFamily =? AF_INET6))
           (- EAFNOSUPPORT) ;;
  socketProto <- orReturn (getsockopt k sockFd SOL_SOCKET SO_PROTOCOL) ;;
  returnIf (negb (socketProto =? IPPROTO_UDP) && negb (socketProto =? IPPROTO_TCP))
           (- EPROTONOSUPPORT) ;;
  let '(sock_cookie, errno) := getSocketCookie k sockFd in
  returnIf (sock_cookie =? 0) (- errno) ;;
  let newKey := UidTagValue.mk (uint32_t chargeUid) tag in
  configuration <-
    orReturn (readValue (mConfigurationMap bh) CURRENT_STATS_MAP_CONFIGURATION_KEY) ;;
  returnIf (negb (configuration =? SELECT_MAP_A) &&
            negb (configuration =? SELECT_MAP_B)) (- EINVAL) ;;
  let currentMap :=
    if configuration =? SELECT_MAP_A then mStatsMapA bh else mStatsMapB bh in
  counts <- orReturn (iterate currentMap (countUidStatsEntries chargeUid) (0, 0)) ;;
  let '(totalEntryCount, perUidEntryCount) := counts in
  returnIf ((totalEntryCount >? mTotalUidStatsEntriesLimit bh) ||
            (perUidEntryCount >? mPerUidStatsEntriesLimit bh)) (- EMFILE) ;;
  res <- writeCookieTag sock_cookie newKey ;;
  orReturn res ;;
  ret 0.

Definition tagSocket (k : Kernel) (sockFd tag chargeUid realUid : Z)
    (bh : BpfHandler) : Z * BpfHandler :=
  run (tagSocket_body k sockFd tag chargeUid realUid) bh.

Definition untagSocket_body (k : Kernel) (sockFd : Z) : Call Z :=
  let '(sock_cookie, errno) := getSocketCookie k sockFd in
  returnIf (sock_cookie =? 0) (- errno) ;;
  bh <- this ;;
  returnIf (negb (isValid (mCookieTagMap bh))) (- EPERM) ;;
  res <- deleteCookieTag sock_cookie ;;
  orReturn res ;;
  ret 0.

Definition untagSocket (k : Kernel) (sockFd : Z) (bh : BpfHandler)
  : Z * BpfHandler :=
  run (untagSocket_body k sockFd) bh.

End Handler.

(** * Properties *)

(** ** Helper definitions used by the statements *)

Section Statements.
Context `{K : Abi}.

(** The handler with another permission table and everything else as it is. *)
Definition with_permissions (bh : BpfHandler) (pm : BpfMap Z Z) : BpfHandler :=
  mkBpfHandler (mPerUidStatsEntriesLimit bh) (mTotalUidStatsEntriesLimit bh)
    (mStatsMapA bh) (mStatsMapB bh) (mConfigurationMap bh) pm (mCookieTagMap bh).

(** The handler with other attribution entries. *)
Definition with_cookie_entries (bh : BpfHandler)
    (es : gmap Z UidTagValue.t) : BpfHandler :=
  mkBpfHandler (mPerUidStatsEntriesLimit bh) (mTotalUidStatsEntriesLimit bh)
    (mStatsMapA bh) (mStatsMapB bh) (mConfigurationMap bh) (mUidPermissionMap bh)
    (mkBpfMap (isValid (mCookieTagMap bh)) (failure (mCookieTagMap bh))
       (max_entries (mCookieTagMap bh)) es).

(** The identities the delegation gate trusts without a permission entry. *)
Definition trusted (appId : Z) : Prop :=
  appId = AID_ROOT ∨ appId = AID_SYSTEM ∨ appId = AID_DNS.

(** A [tagSocket] call passes every check up to and including the
    resolution of the socket cookie (lines 212 to 255), and the cookie is
    [cookie]. *)
Definition admitted (k : Kernel) (sockFd chargeUid realUid : Z)
    (bh : BpfHandler) (cookie : Z) : Prop :=
  isValid (mCookieTagMap bh) = true ∧
  (chargeUid = realUid ∨ hasUpdateDeviceStatsPermission bh realUid = true) ∧
  chargeUid ≠ AID_CLAT ∧
  (∃ family, getsockopt k sockFd SOL_SOCKET SO_DOMAIN = Ok family ∧
             (family = AF_INET ∨ family = AF_INET6)) ∧
  (∃ proto, getsockopt k sockFd SOL_SOCKET SO_PROTOCOL = Ok proto ∧
            (proto = IPPROTO_UDP ∨ proto = IPPROTO_TCP)) ∧
  (getSocketCookie k sockFd).1 = cookie ∧
  cookie ≠ 0.

(** The write that ends a successful [tagSocket] call (lines 307 to 314):
    the table's error, negated, when it refuses the write ([E2BIG] when it
    has no room for a new cookie), otherwise 0 and the entry stored under the
    cookie. *)
Definition upsert (bh : BpfHandler) (chargeUid tag cookie : Z)
  : Z * BpfHandler :=
  match refusal (mCookieTagMap bh) with
  | Some e => (- e, bh)
  | None =>
      if noRoomFor (mCookieTagMap bh) cookie then (- E2BIG, bh)
      else
        (0, with_cookie_entries bh
              (<[cookie := UidTagValue.mk (uint32_t chargeUid) tag]>
                 (entries (mCookieTagMap bh))))
  end.

(** What [tagSocket] does from line 289 on with the result of the scan:
    propagate the scan's error, deny when a count is over its limit,
    otherwise write the entry. *)
Definition quotaThenUpsert (bh : BpfHandler) (chargeUid tag cookie : Z)
    (scan : Result (Z * Z)) : Z * BpfHandler :=
  match scan with
  | Error e => (- e, bh)
  | Ok (totalEntryCount, perUidEntryCount) =>
      if (totalEntryCount >? mTotalUidStatsEntriesLimit bh) ||
         (perUidEntryCount >? mPerUidStatsEntriesLimit bh)
      then (- EMFILE, bh)
      else upsert bh chargeUid tag cookie
  end.

(** The scan of the selected counting map, as [tagSocket] runs it. *)
Definition scan (m : BpfMap StatsKey.t StatsValue.t) (chargeUid : Z)
  : Result (Z * Z) :=
  iterate m (countUidStatsEntries chargeUid) (0, 0).

(** A [tagSocket] call reaches the quota check of line 295 with the counts
    [total] and [perUid]: it is admitted, the configuration cell holds one of
    the two selectors, and the scan of the map it selects succeeds. *)
Definition reaches_quota_check (k : Kernel) (sockFd chargeUid realUid : Z)
    (bh : BpfHandler) (cookie total perUid : Z) : Prop :=
  admitted k sockFd chargeUid realUid bh cookie ∧
  ∃ v, readValue (mConfigurationMap bh) CURRENT_STATS_MAP_CONFIGURATION_KEY = Ok v ∧
       ((v = SELECT_MAP_A ∧ scan (mStatsMapA bh) chargeUid = Ok (total, perUid)) ∨
        (v ≠ SELECT_MAP_A ∧ v = SELECT_MAP_B ∧
         scan (mStatsMapB bh) chargeUid = Ok (total, perUid))).

(** Number of entries of a counting map, and of those charged to [uid]. *)
Definition entryCount (m : BpfMap StatsKey.t StatsValue.t) : nat :=
  size (entries m).

Definition entryCountOf (uid : Z) (m : BpfMap StatsKey.t StatsValue.t) : nat :=
  size (filter (λ kv : StatsKey.t * StatsValue.t, StatsKey.uid kv.1 = uid)
          (entries m)).

(** Every error the kernel reports about [sockFd] is a positive [errno], and
    a zero cookie comes with one. *)
Definition posix_kernel (k : Kernel) (sockFd : Z) : Prop :=
  (∀ level name e, getsockopt k sockFd level name = Error e → 0 < e) ∧
  ((getSocketCookie k sockFd).1 = 0 → 0 < (getSocketCookie k sockFd).2).

(** Every failure a table of the handler reports is a positive [errno]. *)
Definition posix_tables (bh : BpfHandler) : Prop :=
  (∀ e, failure (mCookieTagMap bh) = Some e → 0 < e) ∧
  (∀ e, failure (mConfigurationMap bh) = Some e → 0 < e) ∧
  (∀ e, failure (mStatsMapA bh) = Some e → 0 < e) ∧
  (∀ e, failure (mStatsMapB bh) = Some e → 0 < e).

End Statements.

(** ** The feature matrix as the design document words it *)

(** Modelled from the spec: the platform is one of three ordered tiers T, U
    and V, or below the lowest of them. *)
Inductive Tier : Type := BelowT | TierT | TierU | TierV.

Definition tier_rank (t : Tier) : nat :=
  match t with BelowT => 0 | TierT => 1 | TierU => 2 | TierV => 3 end%nat.

(** Modelled from the spec: a kernel version has three parts and versions
    are compared part by part, the first part weighing most. *)
Definition version_at_least (v : Z * Z * Z) (major minor sub : Z) : bool :=
  let '(a, b, c) := v in
  (major <? a) || ((a =? major) && ((minor <? b) || ((b =? minor) && (sub <=? c)))).

Definition device_of (t : Tier) (kernel : Z * Z * Z)
    (kernel32 userspace32 : bool) : Device :=
  mkDevice (1 <=? tier_rank t)%nat (2 <=? tier_rank t)%nat (3 <=? tier_rank t)%nat
    (version_at_least kernel) kernel32 userspace32.

(** One rule of section 4.1: when it fires, and the reason it gives. *)
Record Rule : Type := mkRule {
  fires : Device → option string → bool;
  reason : string
}.

(** Rule 6: platform at least V, a 32-bit kernel, and kernel at least
    5.16.0. *)
Definition rule_kernel32 : Rule :=
  mkRule (λ dev _, IsAtLeastV dev && isKernel32Bit dev &&
                   isAtLeastKernelVersion dev 5 16 0)
    "V+ platform with 32 bit kernel, version >= 5.16.0 is unsupported".

(** The eight rules of section 4.1, in the order the document lists them. *)
Definition unsupported_rules : list Rule := [
  mkRule (λ _ dir, bool_decide (dir = None))
    "cg2_path is NULL";
  mkRule (λ dev _, negb (IsAtLeastT dev))
    "S- platform is unsupported";
  mkRule (λ dev _, negb (isAtLeastKernelVersion dev 4 9 0))
    "kernel version < 4.9.0 is unsupported";
  mkRule (λ dev _, IsAtLeastU dev && negb (isAtLeastKernelVersion dev 4 14 0))
    "U+ platform with kernel version < 4.14.0 is unsupported";
  mkRule (λ dev _, IsAtLeastV dev && negb (isAtLeastKernelVersion dev 4 19 0))
    "V+ platform with kernel version < 4.19.0 is unsupported";
  rule_kernel32;
  mkRule (λ dev _, isUserspace32bit dev && isAtLeastKernelVersion dev 6 2 0)
    "32 bit userspace with Kernel version >= 6.2.0 is unsupported";
  mkRule (λ dev dir, IsAtLeastU dev &&
                     negb (bool_decide (dir = Some "/sys/fs/cgroup")))
    "U+ platform with cg2_path != /sys/fs/cgroup is unsupported"
].

(** Rules are tried in order and the first that fires gives the verdict. *)
Fixpoint first_failure (rules : list Rule) (dev : Device)
    (dir : option string) : option string :=
  match rules with
  | [] => None
  | r :: rest =>
      if fires r dev dir then Some (reason r) else first_failure rest dev dir
  end.

(** ** Concrete devices, kernels and handlers used in the examples *)

Module Examples.
#[local] Existing Instance android.

Definition table {Key V : Type} `{Countable Key} (es : gmap Key V)
  : BpfMap Key V := mkBpfMap true None 10000%N es.

Definition unusable {Key V : Type} `{Countable Key} (e : Z) (es : gmap Key V)
  : BpfMap Key V := mkBpfMap true (Some e) 10000%N es.

(** [n] counting entries charged to [uid], with tags [0 .. n-1]. *)
Definition statsOf (uid : Z) (n : nat) : gmap StatsKey.t StatsValue.t :=
  list_to_map
    (map (λ i, (StatsKey.mk uid (Z.of_nat i) 0, StatsValue.mk [])) (seq 0 n)).

(** A handler with the default limits whose live counting map, A, holds [n]
    entries of uid 10001, and whose attribution and permission tables are
    empty. *)
Definition handler (n : nat) : BpfHandler :=
  BpfHandler_default (table (statsOf 10001 n)) (table ∅)
    (table {[ CURRENT_STATS_MAP_CONFIGURATION_KEY := SELECT_MAP_A ]})
    (table ∅) (table ∅).

(** The handler with no counting entries in which the socket of cookie 77
    is tagged. *)
Definition handler_tagged : BpfHandler :=
  with_cookie_entries (handler 0) {[ 77 := UidTagValue.mk 10001 5 ]}.

(** The same handler when the permission table cannot be read. *)
Definition handler_no_permissions : BpfHandler :=
  with_permissions (handler 0) (unusable EBADF ∅).

(** A kernel on which every descriptor is a TCP socket over IPv4 with the
    given cookie. *)
Definition tcp4 (cookie : Z) : Kernel :=
  mkKernel (λ _ _ name, if name =? SO_DOMAIN then Ok AF_INET else Ok IPPROTO_TCP)
    (λ _, (cookie, 0)).

(** A kernel on which no descriptor is a socket. *)
Definition no_socket : Kernel :=
  mkKernel (λ _ _ _, Error 88) (λ _, (0, 88)).

End Examples.

(** * Initialisation: attaching the programs and opening the tables *)

(** The hook points [initPrograms] names ([enum bpf_attach_type] of
    [<linux/bpf.h>]). *)
Inductive bpf_attach_type : Type :=
  | BPF_CGROUP_INET_EGRESS
  | BPF_CGROUP_INET_INGRESS
  | BPF_CGROUP_INET_SOCK_CREATE
  | BPF_CGROUP_INET4_BIND
  | BPF_CGROUP_INET6_BIND
  | BPF_CGROUP_SETSOCKOPT.

#[global] Instance bpf_attach_type_eq_dec : EqDecision bpf_attach_type.
Proof. solve_decision. Defined.

(** The pinned-program paths the source names through macros that are
    defined in other headers; [android_paths] gives them values. *)
Class ProgPaths := {
  XT_BPF_ALLOWLIST_PROG_PATH : string;
  XT_BPF_DENYLIST_PROG_PATH : string;
  XT_BPF_EGRESS_PROG_PATH : string;
  XT_BPF_INGRESS_PROG_PATH : string;
  BPF_EGRESS_PROG_PATH : string;
  BPF_INGRESS_PROG_PATH : string;
  CGROUP_SOCKET_PROG_PATH : string;
  CGROUP_SETSOCKOPT_PROG_PATH : string
}.

Definition android_paths : ProgPaths := {|
  XT_BPF_ALLOWLIST_PROG_PATH :=
    "/sys/fs/bpf/netd_shared/prog_netd_skfilter_allowlist_xtbpf";
  XT_BPF_DENYLIST_PROG_PATH :=
    "/sys/fs/bpf/netd_shared/prog_netd_skfilter_denylist_xtbpf";
  XT_BPF_EGRESS_PROG_PATH :=
    "/sys/fs/bpf/netd_shared/prog_netd_skfilter_egress_xtbpf";
  XT_BPF_INGRESS_PROG_PATH :=
    "/sys/fs/bpf/netd_shared/prog_netd_skfilter_ingress_xtbpf";
  BPF_EGRESS_PROG_PATH :=
    "/sys/fs/bpf/netd_shared/prog_netd_cgroupskb_egress_stats";
  BPF_INGRESS_PROG_PATH :=
    "/sys/fs/bpf/netd_shared/prog_netd_cgroupskb_ingress_stats";
  CGROUP_SOCKET_PROG_PATH :=
    "/sys/fs/bpf/netd_shared/prog_netd_cgroupsock_inet_create";
  CGROUP_SETSOCKOPT_PROG_PATH :=
    "/sys/fs/bpf/netd_shared/prog_netd_cgroupsockopt_prog"
|}.

(** What the kernel answers to the calls of the attachment phase.  Each call
    is [Ok] with its value, or [Error e] when it fails and leaves [e] in
    [errno]; [queryProgram] is the [int] the wrapper returns.  None of these
    wrappers is in the source file. *)
Record ProgKernel : Type := mkProgKernel {
  open_directory : string → Result Z;
  retrieveProgram : string → Result Z;
  attachProgram : bpf_attach_type → Z → Z → Result unit;
  queryProgram : Z → bpf_attach_type → Z
}.

(** [netdutils::isOk]: the status carries no error code.  A status built by
    [Status("...")] is always treated as a failure by the source. *)
Definition isOk (s : Status) : bool :=
  match s with
  | status_ok => true
  | StatusMsg _ => false
  | statusFromErrno err _ => err =? 0
  end.

(** A function of the attachment phase either returns or ends the process
    through [abort()]. *)
Inductive Outcome (A : Type) : Type :=
  | Returned (a : A)
  | Aborted.
Arguments Returned {A} a.
Arguments Aborted {A}.

(** One successful [attachProgram]: the hook point and the path of the
    program attached to it. *)
Definition Attachment : Type := bpf_attach_type * string.

(** The attachment phase runs against the list of attachments the cgroup
    has received so far. *)
Definition Attach (A : Type) : Type :=
  list Attachment → Outcome A * list Attachment.

Definition ok : Attach Status := λ log, (Returned status_ok, log).

Definition fail (s : Status) : Attach Status := λ log, (Returned s, log).

(** [RETURN_IF_NOT_OK(stmt); rest] *)
Definition RETURN_IF_NOT_OK (stmt rest : Attach Status) : Attach Status :=
  λ log,
    match stmt log with
    | (Returned s, log') => if isOk s then rest log' else (Returned s, log')
    | (Aborted, log') => (Aborted, log')
    end.

(** [if (cond) abort();] *)
Definition abortIf (cond : bool) : Attach Status :=
  λ log, if cond then (Aborted, log) else (Returned status_ok, log).

Declare Scope attach_scope.
Delimit Scope attach_scope with attach.
Notation "stmt ;;; rest" := (RETURN_IF_NOT_OK stmt rest)
  (at level 100, right associativity) : attach_scope.

Section AttachPhase.
Context `{P : ProgPaths}.
Variable sys : ProgKernel.

Definition attachProgramToCgroup (programPath : string) (cgroupFd : Z)
    (type : bpf_attach_type) : Attach Status :=
  λ log,
    match retrieveProgram sys programPath with
    | Error errno =>
        (Returned (statusFromErrno errno
                     ("Failed to get program from " +:+ programPath)), log)
    | Ok cgroupProg =>
        match attachProgram sys type cgroupProg cgroupFd with
        | Error errno =>
            (Returned (statusFromErrno errno
                         ("Program " +:+ programPath +:+ " attach failed")), log)
        | Ok _ => (Returned status_ok, log ++ [(type, programPath)])
        end
    end.

Definition checkProgramAccessible (programPath : string) : Attach Status :=
  match retrieveProgram sys programPath with
  | Error errno =>
      fail (statusFromErrno errno
              ("Failed to get program from " +:+ programPath))
  | Ok _ => ok
  end.

Local Open Scope attach_scope.

(** Lines 118 to 167 of [initPrograms]. *)
Definition attachPrograms (dev : Device) (cg2_path : string) : Attach Status :=
  match open_directory sys cg2_path with
  | Error err => fail (statusFromErrno err "Open the cgroup directory failed")
  | Ok cg_fd =>
      checkProgramAccessible XT_BPF_ALLOWLIST_PROG_PATH ;;;
      checkProgramAccessible XT_BPF_DENYLIST_PROG_PATH ;;;
      checkProgramAccessible XT_BPF_EGRESS_PROG_PATH ;;;
      checkProgramAccessible XT_BPF_INGRESS_PROG_PATH ;;;
      attachProgramToCgroup BPF_EGRESS_PROG_PATH cg_fd BPF_CGROUP_INET_EGRESS ;;;
      attachProgramToCgroup BPF_INGRESS_PROG_PATH cg_fd BPF_CGROUP_INET_INGRESS ;;;
      (if isAtLeastKernelVersion dev 4 14 0 then
         attachProgramToCgroup CGROUP_SOCKET_PROG_PATH cg_fd
           BPF_CGROUP_INET_SOCK_CREATE
       else ok) ;;;
      (if isAtLeastKernelVersion dev 4 19 0 then
         attachProgramToCgroup
           "/sys/fs/bpf/netd_readonly/prog_block_bind4_block_port"
           cg_fd BPF_CGROUP_INET4_BIND ;;;
         attachProgramToCgroup
           "/sys/fs/bpf/netd_readonly/prog_block_bind6_block_port"
           cg_fd BPF_CGROUP_INET6_BIND ;;;
         abortIf (queryProgram sys cg_fd BPF_CGROUP_INET_EGRESS <=? 0) ;;;
         abortIf (queryProgram sys cg_fd BPF_CGROUP_INET_INGRESS <=? 0) ;;;
         abortIf (queryProgram sys cg_fd BPF_CGROUP_INET_SOCK_CREATE <=? 0) ;;;
         abortIf (queryProgram sys cg_fd BPF_CGROUP_INET4_BIND <=? 0) ;;;
         abortIf (queryProgram sys cg_fd BPF_CGROUP_INET6_BIND <=? 0)
       else ok) ;;;
      (if isAtLeastKernelVersion dev 5 8 0 then
         attachProgramToCgroup CGROUP_SETSOCKOPT_PROG_PATH cg_fd
           BPF_CGROUP_SETSOCKOPT ;;;
         abortIf (queryProgram sys cg_fd BPF_CGROUP_SETSOCKOPT <=? 0)
       else ok) ;;;
      ok
  end.

(** The whole of [initPrograms]: the checks of lines 73 to 116, then the
    attachment phase on the directory once they have all passed. *)
Definition initPrograms_sys (dev : Device) (cg2_path : option string)
  : Attach Status :=
  match initPrograms (λ _, status_ok) dev cg2_path, cg2_path with
  | status_ok, Some path => attachPrograms dev path
  | refused, _ => fail refused
  end.

End AttachPhase.

(** ** Opening the tables *)

(** What retrieving a pinned table gives: the table, or the error and the
    message of the failure. *)
Inductive Retrieved (T : Type) : Type :=
  | Pinned (t : T)
  | Missing (err : Z) (msg : string).
Arguments Pinned {T} t.
Arguments Missing {T} err msg.

(** The pinned tables, one field for each path [initMaps] names. *)
Record PinnedMaps : Type := mkPinnedMaps {
  STATS_MAP_A_PATH : Retrieved (BpfMap StatsKey.t StatsValue.t);
  STATS_MAP_B_PATH : Retrieved (BpfMap StatsKey.t StatsValue.t);
  CONFIGURATION_MAP_PATH : Retrieved (BpfMap Z Z);
  UID_PERMISSION_MAP_PATH : Retrieved (BpfMap Z Z);
  COOKIE_TAG_MAP_PATH : Retrieved (BpfMap Z UidTagValue.t)
}.

(** A table object before [init]: its descriptor is not open. *)
Definition closed {Key V : Type} `{Countable Key} : BpfMap Key V :=
  mkBpfMap false None 0%N ∅.

(** [BpfMap::init(path)], which is not in the source file: the object takes
    the descriptor of the pinned table and is valid from then on, or the
    retrieval fails, the object is left without a descriptor and the failure
    is returned. *)
Definition BpfMap_init {Key V : Type} `{Countable Key}
    (pinned : Retrieved (BpfMap Key V)) : Status * BpfMap Key V :=
  match pinned with
  | Pinned t =>
      (status_ok, mkBpfMap true (failure t) (max_entries t) (entries t))
  | Missing err msg => (statusFromErrno err msg, closed)
  end.

(** The handler as its constructors leave it: the limits set, no table
    open. *)
Definition BpfHandler_constructed (perUidLimit totalLimit : Z) : BpfHandler :=
  mkBpfHandler perUidLimit totalLimit closed closed closed closed closed.

Section InitMaps.
Variable fs : PinnedMaps.

Definition initMaps (bh : BpfHandler) : Status * BpfHandler :=
  let '(sA, mA) := BpfMap_init (STATS_MAP_A_PATH fs) in
  let bh := mkBpfHandler (mPerUidStatsEntriesLimit bh)
              (mTotalUidStatsEntriesLimit bh) mA (mStatsMapB bh)
              (mConfigurationMap bh) (mUidPermissionMap bh) (mCookieTagMap bh) in
  if negb (isOk sA) then (sA, bh) else
  let '(sB, mB) := BpfMap_init (STATS_MAP_B_PATH fs) in
  let bh := mkBpfHandler (mPerUidStatsEntriesLimit bh)
              (mTotalUidStatsEntriesLimit bh) (mStatsMapA bh) mB
              (mConfigurationMap bh) (mUidPermissionMap bh) (mCookieTagMap bh) in
  if negb (isOk sB) then (sB, bh) else
  let '(sC, mC) := BpfMap_init (CONFIGURATION_MAP_PATH fs) in
  let bh := mkBpfHandler (mPerUidStatsEntriesLimit bh)
              (mTotalUidStatsEntriesLimit bh) (mStatsMapA bh) (mStatsMapB bh)
              mC (mUidPermissionMap bh) (mCookieTagMap bh) in
  if negb (isOk sC) then (sC, bh) else
  let '(sP, mP) := BpfMap_init (UID_PERMISSION_MAP_PATH fs) in
  let bh := mkBpfHandler (mPerUidStatsEntriesLimit bh)
              (mTotalUidStatsEntriesLimit bh) (mStatsMapA bh) (mStatsMapB bh)
              (mConfigurationMap bh) mP (mCookieTagMap bh) in
  if negb (isOk sP) then (sP, bh) else
  let '(sT, mT) := BpfMap_init (COOKIE_TAG_MAP_PATH fs) in
  let bh := mkBpfHandler (mPerUidStatsEntriesLimit bh)
              (mTotalUidStatsEntriesLimit bh) (mStatsMapA bh) (mStatsMapB bh)
              (mConfigurationMap bh) (mUidPermissionMap bh) mT in
  if negb (isOk sT) then (sT, bh) else
  (status_ok, bh).

End InitMaps.

Section Init.
Context `{P : ProgPaths}.

(** [BpfHandler::init]: wait for the loader (which returns once the programs
    are loaded and changes nothing modelled here), then [initPrograms], then
    [initMaps]. *)
Definition BpfHandler_init (sys : ProgKernel) (fs : PinnedMaps) (dev : Device)
    (cg2_path : option string) (bh : BpfHandler) (log : list Attachment)
  : Outcome Status * BpfHandler * list Attachment :=
  match initPrograms_sys sys dev cg2_path log with
  | (Aborted, log') => (Aborted, bh, log')
  | (Returned s, log') =>
      if negb (isOk s) then (Returned s, bh, log') else
      let '(s', bh') := initMaps fs bh in
      if negb (isOk s') then (Returned s', bh', log') else
      (Returned status_ok, bh', log')
  end.

End Init.

(** ** What the statements about initialisation speak of *)

Section InitStatements.
Context `{P : ProgPaths}.

(** The attachments a successful [initPrograms] makes on a device, in the
    order it makes them. *)
Definition attach_plan (dev : Device) : list Attachment :=
  [(BPF_CGROUP_INET_EGRESS, BPF_EGRESS_PROG_PATH);
   (BPF_CGROUP_INET_INGRESS, BPF_INGRESS_PROG_PATH)] ++
  (if isAtLeastKernelVersion dev 4 14 0
   then [(BPF_CGROUP_INET_SOCK_CREATE, CGROUP_SOCKET_PROG_PATH)] else []) ++
  (if isAtLeastKernelVersion dev 4 19 0
   then [(BPF_CGROUP_INET4_BIND,
          "/sys/fs/bpf/netd_readonly/prog_block_bind4_block_port");
         (BPF_CGROUP_INET6_BIND,
          "/sys/fs/bpf/netd_readonly/prog_block_bind6_block_port")]
   else []) ++
  (if isAtLeastKernelVersion dev 5 8 0
   then [(BPF_CGROUP_SETSOCKOPT, CGROUP_SETSOCKOPT_PROG_PATH)] else []).

(** The four programs whose presence is checked before anything is
    attached. *)
Definition checked_programs : list string :=
  [XT_BPF_ALLOWLIST_PROG_PATH; XT_BPF_DENYLIST_PROG_PATH;
   XT_BPF_EGRESS_PROG_PATH; XT_BPF_INGRESS_PROG_PATH].

(** Every failure the kernel reports during the attachment phase carries a
    non-zero [errno]. *)
Definition posix_progs (sys : ProgKernel) : Prop :=
  (∀ path e, open_directory sys path = Error e → e ≠ 0) ∧
  (∀ path e, retrieveProgram sys path = Error e → e ≠ 0) ∧
  (∀ type prog cg e, attachProgram sys type prog cg = Error e → e ≠ 0).

(** Every table that cannot be retrieved fails with a non-zero [errno]. *)
Definition posix_pinned (fs : PinnedMaps) : Prop :=
  (∀ e msg, STATS_MAP_A_PATH fs = Missing e msg → e ≠ 0) ∧
  (∀ e msg, STATS_MAP_B_PATH fs = Missing e msg → e ≠ 0) ∧
  (∀ e msg, CONFIGURATION_MAP_PATH fs = Missing e msg → e ≠ 0) ∧
  (∀ e msg, UID_PERMISSION_MAP_PATH fs = Missing e msg → e ≠ 0) ∧
  (∀ e msg, COOKIE_TAG_MAP_PATH fs = Missing e msg → e ≠ 0).

(** On the directory descriptor [cg], every query the source makes on this
    device finds a program: the five of the 4.19 block and the one of the
    5.8 block. *)
Definition verified (sys : ProgKernel) (dev : Device) (cg : Z) : Prop :=
  (isAtLeastKernelVersion dev 4 19 0 = true →
   0 < queryProgram sys cg BPF_CGROUP_INET_EGRESS ∧
   0 < queryProgram sys cg BPF_CGROUP_INET_INGRESS ∧
   0 < queryProgram sys cg BPF_CGROUP_INET_SOCK_CREATE ∧
   0 < queryProgram sys cg BPF_CGROUP_INET4_BIND ∧
   0 < queryProgram sys cg BPF_CGROUP_INET6_BIND) ∧
  (isAtLeastKernelVersion dev 5 8 0 = true →
   0 < queryProgram sys cg BPF_CGROUP_SETSOCKOPT).

(** Some call of the attachment phase is answered with an error. *)
Definition some_call_fails (sys : ProgKernel) : Prop :=
  (∃ path e, open_directory sys path = Error e) ∨
  (∃ path e, retrieveProgram sys path = Error e) ∨
  (∃ type prog cg e, attachProgram sys type prog cg = Error e).

(** What a piece of the attachment phase does from any list of attachments:
    it appends a prefix of [plan]; when it returns an ok status that status
    is [status_ok], the whole of [plan] was appended and [V] holds; it
    returns a failure only if some call failed; it aborts only if [V] does
    not hold. *)
Definition runs (sys : ProgKernel) (c : Attach Status)
    (plan : list Attachment) (V : Prop) : Prop :=
  ∀ log, ∃ l,
    (c log).2 = log ++ l ∧ l `prefix_of` plan ∧
    match (c log).1 with
    | Aborted => ¬ V
    | Returned s =>
        if isOk s then s = status_ok ∧ l = plan ∧ V else some_call_fails sys
    end.

(** The program pinned at [path] can be retrieved. *)
Definition accessible (sys : ProgKernel) (path : string) : Prop :=
  ∃ prog, retrieveProgram sys path = Ok prog.

(** The program of an attachment can be retrieved and the kernel accepts
    its attachment to the directory descriptor [cg]. *)
Definition attachable (sys : ProgKernel) (cg : Z) (a : Attachment) : Prop :=
  ∃ prog, retrieveProgram sys a.2 = Ok prog ∧
          attachProgram sys a.1 prog cg = Ok tt.

(** The calls [initPrograms] makes on this device before and between its
    queries are all answered without error: the four programs it checks
    are there, and each program it attaches on this device is there and is
    accepted on [cg].  Nothing is asked of any other call. *)
Definition planned_calls_succeed (sys : ProgKernel) (dev : Device) (cg : Z)
  : Prop :=
  Forall (accessible sys) checked_programs ∧
  Forall (attachable sys cg) (attach_plan dev).

(** A piece of the attachment phase that never returns a failure: from any
    list of attachments it returns [status_ok] and [V] holds, or it aborts
    and [V] does not hold. *)
Definition completes (c : Attach Status) (V : Prop) : Prop :=
  ∀ log, ((∃ log', c log = (Returned status_ok, log')) ∧ V) ∨
         ((c log).1 = Aborted ∧ ¬ V).

(** The error of a table that is not pinned. *)
Definition missing_error {T : Type} (r : Retrieved T) : option (Z * string) :=
  match r with
  | Pinned _ => None
  | Missing err msg => Some (err, msg)
  end.

(** The first table, in the order [initMaps] opens them, that is not
    pinned. *)
Definition first_missing (fs : PinnedMaps) : option (Z * string) :=
  head (omap id [missing_error (STATS_MAP_A_PATH fs);
                 missing_error (STATS_MAP_B_PATH fs);
                 missing_error (CONFIGURATION_MAP_PATH fs);
                 missing_error (UID_PERMISSION_MAP_PATH fs);
                 missing_error (COOKIE_TAG_MAP_PATH fs)]).

(** All five tables of the handler are open. *)
Definition all_valid (bh : BpfHandler) : Prop :=
  isValid (mStatsMapA bh) = true ∧ isValid (mStatsMapB bh) = true ∧
  isValid (mConfigurationMap bh) = true ∧
  isValid (mUidPermissionMap bh) = true ∧
  isValid (mCookieTagMap bh) = true.

End InitStatements.

(** ** What the further statements about the socket operations speak of *)

(** The table holds fewer entries than it can. *)
Definition has_room {Key V : Type} `{Countable Key} (m : BpfMap Key V) : Prop :=
  (N.of_nat (size (entries m)) < max_entries m)%N.

(** The tables of a handler other than the entries of the attribution
    table. *)
Definition same_tables (bh bh' : BpfHandler) : Prop :=
  mPerUidStatsEntriesLimit bh' = mPerUidStatsEntriesLimit bh ∧
  mTotalUidStatsEntriesLimit bh' = mTotalUidStatsEntriesLimit bh ∧
  mStatsMapA bh' = mStatsMapA bh ∧
  mStatsMapB bh' = mStatsMapB bh ∧
  mConfigurationMap bh' = mConfigurationMap bh ∧
  mUidPermissionMap bh' = mUidPermissionMap bh ∧
  isValid (mCookieTagMap bh') = isValid (mCookieTagMap bh) ∧
  failure (mCookieTagMap bh') = failure (mCookieTagMap bh) ∧
  max_entries (mCookieTagMap bh') = max_entries (mCookieTagMap bh).

(** ** Concrete kernels and pinned tables used in the examples *)

Module InitExamples.
#[local] Existing Instance android.
#[local] Existing Instance android_paths.

(** A kernel on which every program is pinned, every attachment is accepted
    and every query finds one program. *)
Definition healthy : ProgKernel :=
  mkProgKernel (λ _, Ok 7) (λ _, Ok 9) (λ _ _ _, Ok tt) (λ _ _, 1).

(** The same kernel with one program missing ([ENOENT]). *)
Definition without (missing : string) : ProgKernel :=
  mkProgKernel (λ _, Ok 7)
    (λ path, if String.eqb path missing then Error 2 else Ok 9)
    (λ _ _ _, Ok tt) (λ _ _, 1).

(** The healthy kernel, except that a query of [hook] finds nothing. *)
Definition blind (hook : bpf_attach_type) : ProgKernel :=
  mkProgKernel (λ _, Ok 7) (λ _, Ok 9) (λ _ _ _, Ok tt)
    (λ _ type, if decide (type = hook) then 0 else 1).

(** A kernel that answers only what it has: the one cgroup directory opens,
    only the programs pinned under [/sys/fs/bpf/] are found, an attachment
    is accepted only of a program it returned and on the descriptor of the
    directory it opened, and a query of [hook] finds nothing. *)
Definition strict (hook : bpf_attach_type) : ProgKernel :=
  mkProgKernel
    (λ path, if String.eqb path "/sys/fs/cgroup" then Ok 7 else Error 2)
    (λ path, if String.prefix "/sys/fs/bpf/" path then Ok 9 else Error 2)
    (λ _ prog cg, if (prog =? 9) && (cg =? 7) then Ok tt else Error 9)
    (λ cg type, if negb (cg =? 7) then -1 else
                if decide (type = hook) then 0 else 1).

(** All five tables pinned, counting map A live and empty. *)
Definition pinned_all : PinnedMaps :=
  mkPinnedMaps (Pinned (Examples.table ∅)) (Pinned (Examples.table ∅))
    (Pinned (Examples.table
               {[ CURRENT_STATS_MAP_CONFIGURATION_KEY := SELECT_MAP_A ]}))
    (Pinned (Examples.table ∅)) (Pinned (Examples.table ∅)).

(** The permission table is not pinned. *)
Definition pinned_no_permissions : PinnedMaps :=
  mkPinnedMaps (Pinned (Examples.table ∅)) (Pinned (Examples.table ∅))
    (Pinned (Examples.table
               {[ CURRENT_STATS_MAP_CONFIGURATION_KEY := SELECT_MAP_A ]}))
    (Missing 2 "uid permission map") (Pinned (Examples.table ∅)).

(** A device of tier V on a 64-bit 5.10.0 kernel, and the directory it
    mandates. *)
Definition modern : Device := device_of TierV (5, 10, 0) false false.

Definition cgroup : option string := Some "/sys/fs/cgroup".

(** A handler just constructed with the default limits. *)
Definition fresh : BpfHandler :=
  BpfHandler_constructed PER_UID_STATS_ENTRIES_LIMIT
    TOTAL_UID_STATS_ENTRIES_LIMIT.

End InitExamples.

(** * Proofs *)

Ltac unfold_call :=
  unfold tagSocket, untagSocket, run, tagSocket_body, untagSocket_body, bind,
    this, returnIf, orReturn, Return, ret, writeCookieTag, deleteCookieTag,
    writeValue, deleteValue.

(** ** Tables *)

Section TableFacts.
Context `{K : Abi}.
Context {Key V : Type} `{Countable Key}.

Lemma table_eta (m : BpfMap Key V) :
  mkBpfMap (isValid m) (failure m) (max_entries m) (entries m) = m.
Proof. destruct m; reflexivity. Qed.

Lemma usable_refusal (m : BpfMap Key V) : usable m → refusal m = None.
Proof. intros [Hv Hf]. unfold refusal. rewrite Hv. exact Hf. Qed.

Lemma refusal_valid (m : BpfMap Key V) :
  isValid m = true → refusal m = failure m.
Proof. intros Hv. unfold refusal. rewrite Hv. reflexivity. Qed.

Lemma refusal_positive (m : BpfMap Key V) (e : Z) :
  0 < EBADF → (∀ e', failure m = Some e' → 0 < e') →
  refusal m = Some e → 0 < e.
Proof.
  intros Hbadf Hfail. unfold refusal.
  destruct (isValid m); [apply Hfail | intros [= <-]; exact Hbadf].
Qed.

Lemma readValue_error_positive (m : BpfMap Key V) (key : Key) (e : Z) :
  0 < EBADF → 0 < ENOENT → (∀ e', failure m = Some e' → 0 < e') →
  readValue m key = Error e → 0 < e.
Proof.
  intros Hbadf Hnoent Hfail. unfold readValue.
  destruct (refusal m) as [e'|] eqn:Hr.
  - intros [= <-]. eapply refusal_positive; eauto.
  - destruct (entries m !! key); [discriminate | intros [= <-]; exact Hnoent].
Qed.

End TableFacts.

(** ** The quota scan *)

Section ScanFacts.
Context `{K : Abi}.

Lemma incr32_uint32 (a : Z) : incr32 (uint32_t a) = uint32_t (a + 1).
Proof. unfold incr32, uint32_t. apply Zplus_mod_idemp_l. Qed.

(** The two counters after the callback has seen the keys of [l]. *)
Lemma foldl_countUidStatsEntries (chargeUid : Z)
    (l : list (StatsKey.t * StatsValue.t)) (a b : Z) :
  foldl (visit (countUidStatsEntries chargeUid)) (Ok (uint32_t a, uint32_t b)) l =
  Ok (uint32_t (a + Z.of_nat (length l)),
      uint32_t (b + Z.of_nat (length
         (filter (λ kv : StatsKey.t * StatsValue.t, StatsKey.uid kv.1 = chargeUid) l)))).
Proof.
  revert a b. induction l as [|kv l IH]; intros a b.
  - simpl. rewrite !Z.add_0_r. reflexivity.
  - cbn [foldl visit countUidStatsEntries]. rewrite filter_cons.
    rewrite incr32_uint32.
    destruct (decide (StatsKey.uid kv.1 = chargeUid)) as [Heq|Hne].
    + apply Z.eqb_eq in Heq. rewrite Heq, incr32_uint32, IH.
      cbn [length]. do 2 f_equal; f_equal; lia.
    + apply Z.eqb_neq in Hne. rewrite Hne, IH.
      cbn [length]. do 2 f_equal; f_equal; lia.
Qed.

Lemma length_filter_map_to_list (P : StatsKey.t * StatsValue.t → Prop)
    `{!∀ kv, Decision (P kv)} (es : gmap StatsKey.t StatsValue.t) :
  length (filter P (map_to_list es)) = size (filter P es).
Proof.
  rewrite map_filter_alt, map_size_list_to_map; [reflexivity|].
  apply (sublist_NoDup _ ((map_to_list es).*1)).
  - apply NoDup_fst_map_to_list.
  - apply fmap_sublist, sublist_filter.
Qed.

(** On a table that answers, the scan counts every entry and the entries of
    [chargeUid], each modulo [2^32]. *)
Lemma scan_counts (m : BpfMap StatsKey.t StatsValue.t) (chargeUid : Z) :
  refusal m = None →
  scan m chargeUid =
  Ok (uint32_t (Z.of_nat (entryCount m)),
      uint32_t (Z.of_nat (entryCountOf chargeUid m))).
Proof.
  intros Hr. unfold scan, iterate. rewrite Hr.
  change (Ok (0, 0)) with (Ok (A:=Z * Z) (uint32_t 0, uint32_t 0)).
  rewrite foldl_countUidStatsEntries, length_filter_map_to_list,
    length_map_to_list.
  reflexivity.
Qed.

(** The scan fails only when the table refuses it. *)
Lemma scan_error (m : BpfMap StatsKey.t StatsValue.t) (chargeUid e : Z) :
  scan m chargeUid = Error e → refusal m = Some e.
Proof.
  destruct (refusal m) as [e'|] eqn:Hr.
  - unfold scan, iterate. rewrite Hr. congruence.
  - rewrite scan_counts by exact Hr. discriminate.
Qed.

End ScanFacts.

(** ** The shape of a call *)

Section Unfolding.
Context `{K : Abi}.

Lemma handler_eta (bh : BpfHandler) :
  mkBpfHandler (mPerUidStatsEntriesLimit bh) (mTotalUidStatsEntriesLimit bh)
    (mStatsMapA bh) (mStatsMapB bh) (mConfigurationMap bh)
    (mUidPermissionMap bh) (mCookieTagMap bh) = bh.
Proof. destruct bh; reflexivity. Qed.

Lemma with_cookie_entries_id (bh : BpfHandler) :
  with_cookie_entries bh (entries (mCookieTagMap bh)) = bh.
Proof. unfold with_cookie_entries. rewrite table_eta. apply handler_eta. Qed.

(** [tagSocket] with its early returns spelled out as a chain of tests. *)
Lemma tagSocket_unfold (k : Kernel) (sockFd tag chargeUid realUid : Z)
    (bh : BpfHandler) :
  tagSocket k sockFd tag chargeUid realUid bh =
  if negb (isValid (mCookieTagMap bh)) then (- EPERM, bh) else
  if negb (chargeUid =? realUid) &&
     negb (hasUpdateDeviceStatsPermission bh realUid) then (- EPERM, bh) else
  if chargeUid =? AID_CLAT then (- EPERM, bh) else
  match getsockopt k sockFd SOL_SOCKET SO_DOMAIN with
  | Error e => (- e, bh)
  | Ok family =>
  if negb (family =? AF_INET) && negb (family =? AF_INET6)
  then (- EAFNOSUPPORT, bh) else
  match getsockopt k sockFd SOL_SOCKET SO_PROTOCOL with
  | Error e => (- e, bh)
  | Ok proto =>
  if negb (proto =? IPPROTO_UDP) && negb (proto =? IPPROTO_TCP)
  then (- EPROTONOSUPPORT, bh) else
  if (getSocketCookie k sockFd).1 =? 0
  then (- (getSocketCookie k sockFd).2, bh) else
  match readValue (mConfigurationMap bh) CURRENT_STATS_MAP_CONFIGURATION_KEY with
  | Error e => (- e, bh)
  | Ok v =>
  if negb (v =? SELECT_MAP_A) && negb (v =? SELECT_MAP_B)
  then (- EINVAL, bh) else
  quotaThenUpsert bh chargeUid tag (getSocketCookie k sockFd).1
    (scan (if v =? SELECT_MAP_A then mStatsMapA bh else mStatsMapB bh)
       chargeUid)
  end end end.
Proof.
  unfold_call. unfold quotaThenUpsert, upsert, scan, with_cookie_entries.
  destruct (isValid (mCookieTagMap bh)) eqn:Hvalid; simpl; [|reflexivity].
  destruct (negb (chargeUid =? realUid) && _); simpl; [reflexivity|].
  destruct (chargeUid =? AID_CLAT); simpl; [reflexivity|].
  destruct (getsockopt k sockFd SOL_SOCKET SO_DOMAIN) as [family|e]; simpl;
    [|reflexivity].
  destruct (negb (family =? AF_INET) && _); simpl; [reflexivity|].
  destruct (getsockopt k sockFd SOL_SOCKET SO_PROTOCOL) as [proto|e]; simpl;
    [|reflexivity].
  destruct (negb (proto =? IPPROTO_UDP) && _); simpl; [reflexivity|].
  destruct (getSocketCookie k sockFd) as [cookie errno]; simpl.
  destruct (cookie =? 0); simpl; [reflexivity|].
  destruct (readValue _ _) as [v|e]; simpl; [|reflexivity].
  destruct (negb (v =? SELECT_MAP_A) && _); simpl; [reflexivity|].
  destruct (iterate _ _ _) as [[total perUid]|e]; simpl; [|reflexivity].
  destruct ((total >? _) || _); simpl; [reflexivity|].
  rewrite !(refusal_valid _ Hvalid).
  destruct (failure (mCookieTagMap bh)) as [e|]; simpl;
    [rewrite handler_eta; reflexivity|].
  destruct (noRoomFor (mCookieTagMap bh) cookie); simpl;
    [rewrite handler_eta | rewrite Hvalid]; reflexivity.
Qed.

(** [untagSocket] in the same form. *)
Lemma untagSocket_unfold (k : Kernel) (sockFd : Z) (bh : BpfHandler) :
  untagSocket k sockFd bh =
  if (getSocketCookie k sockFd).1 =? 0
  then (- (getSocketCookie k sockFd).2, bh) else
  if negb (isValid (mCookieTagMap bh)) then (- EPERM, bh) else
  match failure (mCookieTagMap bh) with
  | Some e => (- e, bh)
  | None =>
      match entries (mCookieTagMap bh) !! (getSocketCookie k sockFd).1 with
      | Some _ =>
          (0, with_cookie_entries bh
                (delete (getSocketCookie k sockFd).1
                   (entries (mCookieTagMap bh))))
      | None => (- ENOENT, bh)
      end
  end.
Proof.
  unfold_call. unfold with_cookie_entries.
  destruct (getSocketCookie k sockFd) as [cookie errno]; simpl.
  destruct (cookie =? 0); simpl; [reflexivity|].
  destruct (isValid (mCookieTagMap bh)) eqn:Hvalid; simpl; [|reflexivity].
  rewrite !(refusal_valid _ Hvalid).
  destruct (failure (mCookieTagMap bh)) as [e|]; simpl;
    [rewrite handler_eta; reflexivity|].
  destruct (entries (mCookieTagMap bh) !! cookie); simpl;
    [rewrite Hvalid | rewrite handler_eta]; reflexivity.
Qed.

(** An admitted call is decided by the configuration cell and the scan of
    the map the cell selects. *)
Lemma tagSocket_admitted (k : Kernel) (sockFd tag chargeUid realUid : Z)
    (bh : BpfHandler) (cookie : Z) :
  admitted k sockFd chargeUid realUid bh cookie →
  tagSocket k sockFd tag chargeUid realUid bh =
  match readValue (mConfigurationMap bh) CURRENT_STATS_MAP_CONFIGURATION_KEY with
  | Error e => (- e, bh)
  | Ok v =>
      if negb (v =? SELECT_MAP_A) && negb (v =? SELECT_MAP_B) then (- EINVAL, bh)
      else quotaThenUpsert bh chargeUid tag cookie
             (scan (if v =? SELECT_MAP_A then mStatsMapA bh else mStatsMapB bh)
                chargeUid)
  end.
Proof.
  intros (Hvalid & Hgate & Hclat & (fam & Hfam & Hfam') & (proto & Hproto & Hproto')
          & Hcookie & Hnz).
  rewrite tagSocket_unfold, Hvalid, Hfam, Hproto, Hcookie. simpl.
  replace (negb (chargeUid =? realUid) &&
           negb (hasUpdateDeviceStatsPermission bh realUid)) with false
    by (destruct Hgate as [->| ->];
        [rewrite Z.eqb_refl | rewrite andb_false_r]; reflexivity).
  apply Z.eqb_neq in Hclat, Hnz. rewrite Hclat, Hnz.
  replace (negb (fam =? AF_INET) && negb (fam =? AF_INET6)) with false
    by (destruct Hfam' as [->| ->]; rewrite Z.eqb_refl;
        [|rewrite andb_false_r]; reflexivity).
  replace (negb (proto =? IPPROTO_UDP) && negb (proto =? IPPROTO_TCP)) with false
    by (destruct Hproto' as [->| ->]; rewrite Z.eqb_refl;
        [|rewrite andb_false_r]; reflexivity).
  reflexivity.
Qed.

End Unfolding.

(** * The claims *)

(** Split on the tests of an unfolded call, outermost first. *)
Ltac split_tests :=
  repeat match goal with
         | |- context [if ?c then _ else _] => destruct c
         | |- context [match ?x with Ok _ => _ | Error _ => _ end] => destruct x
         | |- context [match ?x with Some _ => _ | None => _ end] => destruct x
         | |- context [let '(_, _) := ?x in _] => destruct x
         end.

Section Claims.
Context `{K : Abi}.

(** ** Untagging *)

(** C1, as the code has it. When the socket's cookie resolves and the
    attribution table is usable, [untagSocket] returns 0 and removes the
    entry when the cookie has one; when it has none, the delete is answered
    with [ENOENT], and [untagSocket] returns [-ENOENT] and leaves the handler
    exactly as it was. *)
Theorem untagSocket_removes_or_reports (k : Kernel) (sockFd : Z)
    (bh : BpfHandler) :
  (getSocketCookie k sockFd).1 ≠ 0 →
  usable (mCookieTagMap bh) →
  let cookie := (getSocketCookie k sockFd).1 in
  (is_Some (entries (mCookieTagMap bh) !! cookie) →
   untagSocket k sockFd bh =
     (0, with_cookie_entries bh (delete cookie (entries (mCookieTagMap bh))))) ∧
  (entries (mCookieTagMap bh) !! cookie = None →
   untagSocket k sockFd bh = (- ENOENT, bh)).
Proof.
  intros Hnz Husable cookie. subst cookie.
  rewrite untagSocket_unfold. apply Z.eqb_neq in Hnz. rewrite Hnz.
  destruct Husable as [-> ->]. cbn [negb].
  split.
  - intros [v ->]. reflexivity.
  - intros ->. reflexivity.
Qed.

(** ** The delegation gate *)

(** C6. [hasUpdateDeviceStatsPermission] answers true exactly when the
    permission lookup for [uid mod PER_USER_RANGE] returns an entry with the
    update-device-stats bit set, or that identity is root, system or the DNS
    resolver. *)
Theorem hasUpdateDeviceStatsPermission_iff (bh : BpfHandler) (uid : Z) :
  let appId := uid mod PER_USER_RANGE in
  hasUpdateDeviceStatsPermission bh uid = true ↔
  (∃ p, readValue (mUidPermissionMap bh) appId = Ok p ∧
        Z.land p BPF_PERMISSION_UPDATE_DEVICE_STATS ≠ 0) ∨
  trusted appId.
Proof.
  intros appId. unfold hasUpdateDeviceStatsPermission, trusted. fold appId.
  destruct (readValue (mUidPermissionMap bh) appId) as [p|e].
  - destruct (Z.eqb_spec (Z.land p BPF_PERMISSION_UPDATE_DEVICE_STATS) 0)
      as [Hz|Hnz]; simpl.
    + rewrite !orb_true_iff, !Z.eqb_eq. split.
      * intros [[H|H]|H]; auto.
      * intros [(p' & [= <-] & Hbit)|H]; [contradiction | tauto].
    + split; [|reflexivity]. intros _. left. exists p. auto.
  - rewrite !orb_true_iff, !Z.eqb_eq. split.
    + intros [[H|H]|H]; auto.
    + intros [(p' & [=] & _)|H]. tauto.
Qed.

(** C10. A caller whose identity modulo [PER_USER_RANGE] is root, system or
    the DNS resolver is authorised whatever the permission table holds or
    answers, so also when its lookup fails. *)
Theorem trusted_identity_needs_no_lookup (bh : BpfHandler) (uid : Z) :
  trusted (uid mod PER_USER_RANGE) →
  hasUpdateDeviceStatsPermission bh uid = true.
Proof.
  intros Htrusted. unfold hasUpdateDeviceStatsPermission.
  destruct (match readValue _ _ with Ok _ => _ | Error _ => _ end);
    [reflexivity|].
  rewrite !orb_true_iff, !Z.eqb_eq. unfold trusted in Htrusted. tauto.
Qed.

(** ** Tagging *)

(** C4. A call that charges [AID_CLAT] returns [-EPERM] and leaves the
    handler as it was, for every caller, the charged identity itself
    included. *)
Theorem tagSocket_clat_denied (k : Kernel) (sockFd tag realUid : Z)
    (bh : BpfHandler) :
  tagSocket k sockFd tag AID_CLAT realUid bh = (- EPERM, bh).
Proof.
  rewrite tagSocket_unfold.
  destruct (negb (isValid (mCookieTagMap bh))); [reflexivity|].
  destruct (negb (AID_CLAT =? realUid) && _); [reflexivity|].
  rewrite Z.eqb_refl. reflexivity.
Qed.

(** C5. When the caller charges itself, two runs that differ only in the
    permission table return the same code and leave the same attribution
    table. *)
Theorem self_charge_ignores_permissions (k : Kernel) (sockFd tag uid : Z)
    (bh : BpfHandler) (pm1 pm2 : BpfMap Z Z) :
  let r1 := tagSocket k sockFd tag uid uid (with_permissions bh pm1) in
  let r2 := tagSocket k sockFd tag uid uid (with_permissions bh pm2) in
  r1.1 = r2.1 ∧ mCookieTagMap r1.2 = mCookieTagMap r2.2.
Proof.
  intros r1 r2. subst r1 r2. rewrite !tagSocket_unfold.
  unfold quotaThenUpsert, upsert. cbn [with_permissions mCookieTagMap
    mConfigurationMap mStatsMapA mStatsMapB mPerUidStatsEntriesLimit
    mTotalUidStatsEntriesLimit].
  rewrite Z.eqb_refl. cbn [negb andb].
  split_tests; try (split; reflexivity).
Qed.

(** C7. Once a call is admitted and the configuration cell has been read: an
    unrecognised value is answered with [-EINVAL] and nothing is written;
    [SELECT_MAP_A] makes the quota scan run over counting map A, and
    [SELECT_MAP_B] over counting map B. *)
Theorem tagSocket_counting_map_selection (k : Kernel)
    (sockFd tag chargeUid realUid : Z) (bh : BpfHandler) (cookie v : Z) :
  admitted k sockFd chargeUid realUid bh cookie →
  readValue (mConfigurationMap bh) CURRENT_STATS_MAP_CONFIGURATION_KEY = Ok v →
  (v ≠ SELECT_MAP_A → v ≠ SELECT_MAP_B →
   tagSocket k sockFd tag chargeUid realUid bh = (- EINVAL, bh)) ∧
  (v = SELECT_MAP_A →
   tagSocket k sockFd tag chargeUid realUid bh =
   quotaThenUpsert bh chargeUid tag cookie (scan (mStatsMapA bh) chargeUid)) ∧
  (v ≠ SELECT_MAP_A → v = SELECT_MAP_B →
   tagSocket k sockFd tag chargeUid realUid bh =
   quotaThenUpsert bh chargeUid tag cookie (scan (mStatsMapB bh) chargeUid)).
Proof.
  intros Hadm Hcfg.
  rewrite (tagSocket_admitted _ _ _ _ _ _ _ Hadm), Hcfg.
  repeat split.
  - intros HA HB. apply Z.eqb_neq in HA, HB. rewrite HA, HB. reflexivity.
  - intros ->. rewrite Z.eqb_refl. reflexivity.
  - intros HA ->. apply Z.eqb_neq in HA. rewrite HA, Z.eqb_refl. reflexivity.
Qed.

(** C9. A [tagSocket] call that returns a non-zero code leaves the handler,
    and so the attribution table, exactly as it was. *)
Theorem tagSocket_error_atomic (k : Kernel) (sockFd tag chargeUid realUid : Z)
    (bh : BpfHandler) :
  (tagSocket k sockFd tag chargeUid realUid bh).1 ≠ 0 →
  (tagSocket k sockFd tag chargeUid realUid bh).2 = bh.
Proof.
  rewrite tagSocket_unfold. unfold quotaThenUpsert, upsert.
  split_tests; try reflexivity.
  all: cbn [fst]; intros Hne; contradiction Hne; reflexivity.
Qed.

End Claims.

Section QuotaClaims.
Context `{K : Abi}.

Lemma scan_ok_counts (m : BpfMap StatsKey.t StatsValue.t)
    (chargeUid total perUid : Z) :
  scan m chargeUid = Ok (total, perUid) →
  total = uint32_t (Z.of_nat (entryCount m)) ∧
  perUid = uint32_t (Z.of_nat (entryCountOf chargeUid m)).
Proof.
  intros Hscan. destruct (refusal m) as [e|] eqn:Hr.
  - unfold scan, iterate in Hscan. rewrite Hr in Hscan. discriminate.
  - rewrite (scan_counts _ _ Hr) in Hscan. injection Hscan as <- <-. auto.
Qed.

Lemma tagSocket_at_quota_check (k : Kernel) (sockFd tag chargeUid realUid : Z)
    (bh : BpfHandler) (cookie total perUid : Z) :
  reaches_quota_check k sockFd chargeUid realUid bh cookie total perUid →
  tagSocket k sockFd tag chargeUid realUid bh =
  quotaThenUpsert bh chargeUid tag cookie (Ok (total, perUid)).
Proof.
  intros (Hadm & v & Hcfg & Hsel).
  rewrite (tagSocket_admitted _ _ _ _ _ _ _ Hadm), Hcfg.
  destruct Hsel as [(-> & Hscan)|(HA & -> & Hscan)].
  - rewrite Z.eqb_refl, Hscan. reflexivity.
  - apply Z.eqb_neq in HA. rewrite HA, Z.eqb_refl, Hscan. reflexivity.
Qed.

(** C3, as the code has it. For a call that reaches the quota check with
    the counts [total] and [perUid]: it is denied with [-EMFILE], and nothing
    is written, when [total] is greater than the total limit or [perUid] is
    greater than the per-uid limit; otherwise it goes on to the write. With a
    usable attribution table, whose only refusal is the [E2BIG] of a full
    table, the call returns [-EMFILE] exactly in the first case. The counts
    are the numbers of entries of the selected counting map,
    modulo [2^32]. At the boundary, with a per-uid limit of 500 and the total
    within its limit, a count of exactly 500 is admitted and a count of 501
    is denied. *)
Theorem quota_denial_is_strict (k : Kernel) (sockFd tag chargeUid realUid : Z)
    (bh : BpfHandler) (cookie total perUid : Z) :
  reaches_quota_check k sockFd chargeUid realUid bh cookie total perUid →
  let call := tagSocket k sockFd tag chargeUid realUid bh in
  let exceeded := mTotalUidStatsEntriesLimit bh < total ∨
                  mPerUidStatsEntriesLimit bh < perUid in
  (exceeded → call = (- EMFILE, bh)) ∧
  (¬ exceeded → call = upsert bh chargeUid tag cookie) ∧
  (usable (mCookieTagMap bh) → EMFILE ≠ 0 → E2BIG ≠ EMFILE →
   (call.1 = - EMFILE ↔ exceeded)) ∧
  (∃ m, (m = mStatsMapA bh ∨ m = mStatsMapB bh) ∧
        total = uint32_t (Z.of_nat (entryCount m)) ∧
        perUid = uint32_t (Z.of_nat (entryCountOf chargeUid m))) ∧
  (mPerUidStatsEntriesLimit bh = 500 → total ≤ mTotalUidStatsEntriesLimit bh →
   (perUid = 500 → call = upsert bh chargeUid tag cookie) ∧
   (perUid = 501 → call = (- EMFILE, bh))).
Proof.
  intros Hreach call exceeded. subst call.
  rewrite (tagSocket_at_quota_check _ _ _ _ _ _ _ _ _ Hreach).
  unfold quotaThenUpsert.
  assert (Hover : (total >? mTotalUidStatsEntriesLimit bh) ||
                  (perUid >? mPerUidStatsEntriesLimit bh) = true ↔ exceeded).
  { rewrite orb_true_iff, !Z.gtb_gt. unfold exceeded. lia. }
  destruct ((total >? _) || (perUid >? _)) eqn:Htest.
  - assert (Hex : exceeded) by (apply Hover; reflexivity).
    repeat split; try tauto.
    + destruct Hreach as (_ & v & _ & [(_ & Hscan)|(_ & _ & Hscan)]);
        apply scan_ok_counts in Hscan; eauto.
    + intros ->. unfold exceeded in Hex. lia.
  - assert (Hin : ¬ exceeded) by (rewrite <- Hover; discriminate).
    repeat split; try tauto.
    + intros Hcode. exfalso. unfold upsert in Hcode.
      match goal with
      | Hu : usable _ |- _ => rewrite (usable_refusal _ Hu) in Hcode
      end.
      destruct (noRoomFor (mCookieTagMap bh) cookie); cbn [fst] in Hcode; lia.
    + destruct Hreach as (_ & v & _ & [(_ & Hscan)|(_ & _ & Hscan)]);
        apply scan_ok_counts in Hscan; eauto.
    + intros ->. unfold exceeded in Hin. lia.
Qed.

(** C8. Where every error reported by the kernel and by the tables is a
    positive [errno], [tagSocket] and [untagSocket] either return 0, with the
    cookie non-zero and the entry written (respectively removed), or return a
    strictly negative code and leave the handler as it was; a zero cookie is
    always answered with a negative code. *)
Theorem tag_untag_return_codes (k : Kernel) (sockFd tag chargeUid realUid : Z)
    (bh : BpfHandler) :
  errno_positive K → posix_kernel k sockFd → posix_tables bh →
  let cookie := (getSocketCookie k sockFd).1 in
  let t := tagSocket k sockFd tag chargeUid realUid bh in
  let u := untagSocket k sockFd bh in
  ((t.1 = 0 ∧ cookie ≠ 0 ∧
    t.2 = with_cookie_entries bh
            (<[cookie := UidTagValue.mk (uint32_t chargeUid) tag]>
               (entries (mCookieTagMap bh)))) ∨
   (t.1 < 0 ∧ t.2 = bh)) ∧
  ((u.1 = 0 ∧ cookie ≠ 0 ∧
    u.2 = with_cookie_entries bh (delete cookie (entries (mCookieTagMap bh)))) ∨
   (u.1 < 0 ∧ u.2 = bh)) ∧
  (cookie = 0 → t.1 < 0 ∧ u.1 < 0).
Proof.
  intros (Hperm & Hnoent & Hbadf & Hinval & Hmfile & Hprot & Haf & H2big)
         [Hsock Hzero] (Hct & Hcfg & HA & HB) cookie t u.
  assert (Htag : (t.1 = 0 ∧ cookie ≠ 0 ∧
    t.2 = with_cookie_entries bh
            (<[cookie := UidTagValue.mk (uint32_t chargeUid) tag]>
               (entries (mCookieTagMap bh)))) ∨ (t.1 < 0 ∧ t.2 = bh)).
  { subst t cookie. rewrite tagSocket_unfold.
    destruct (negb (isValid (mCookieTagMap bh))) eqn:Hvalid;
      [right; split; [cbn [fst]; lia | reflexivity]|].
    apply negb_false_iff in Hvalid.
    destruct (negb (chargeUid =? realUid) && _);
      [right; split; [cbn [fst]; lia | reflexivity]|].
    destruct (chargeUid =? AID_CLAT);
      [right; split; [cbn [fst]; lia | reflexivity]|].
    destruct (getsockopt k sockFd SOL_SOCKET SO_DOMAIN) as [family|e] eqn:Hfam;
      [|right; split; [cbn [fst]; apply Hsock in Hfam; lia | reflexivity]].
    destruct (negb (family =? AF_INET) && _);
      [right; split; [cbn [fst]; lia | reflexivity]|].
    destruct (getsockopt k sockFd SOL_SOCKET SO_PROTOCOL) as [proto|e] eqn:Hproto;
      [|right; split; [cbn [fst]; apply Hsock in Hproto; lia | reflexivity]].
    destruct (negb (proto =? IPPROTO_UDP) && _);
      [right; split; [cbn [fst]; lia | reflexivity]|].
    destruct (Z.eqb_spec (getSocketCookie k sockFd).1 0) as [Hz|Hnz];
      [right; split; [cbn [fst]; specialize (Hzero Hz); lia | reflexivity]|].
    destruct (readValue _ _) as [v|e] eqn:Hread.
    2:{ right. split; [|reflexivity]. cbn [fst].
        apply readValue_error_positive in Hread; auto. lia. }
    destruct (negb (v =? SELECT_MAP_A) && _);
      [right; split; [cbn [fst]; lia | reflexivity]|].
    unfold quotaThenUpsert.
    destruct (scan _ chargeUid) as [[total perUid]|e] eqn:Hscan.
    2:{ right. split; [|reflexivity]. cbn [fst].
        apply scan_error in Hscan.
        destruct (v =? SELECT_MAP_A);
          apply refusal_positive in Hscan; auto; lia. }
    destruct ((total >? _) || _);
      [right; split; [cbn [fst]; lia | reflexivity]|].
    unfold upsert. rewrite (refusal_valid _ Hvalid).
    destruct (failure (mCookieTagMap bh)) as [e|] eqn:Hfail.
    - right. split; [|reflexivity]. cbn [fst]. specialize (Hct e eq_refl). lia.
    - destruct (noRoomFor (mCookieTagMap bh) _).
      + right. split; [cbn [fst]; lia | reflexivity].
      + left. auto. }
  assert (Huntag : (u.1 = 0 ∧ cookie ≠ 0 ∧
    u.2 = with_cookie_entries bh (delete cookie (entries (mCookieTagMap bh)))) ∨
    (u.1 < 0 ∧ u.2 = bh)).
  { subst u cookie. rewrite untagSocket_unfold.
    destruct (Z.eqb_spec (getSocketCookie k sockFd).1 0) as [Hz|Hnz];
      [right; split; [cbn [fst]; specialize (Hzero Hz); lia | reflexivity]|].
    destruct (negb (isValid (mCookieTagMap bh)));
      [right; split; [cbn [fst]; lia | reflexivity]|].
    destruct (failure (mCookieTagMap bh)) as [e|] eqn:Hfail.
    - right. split; [|reflexivity]. cbn [fst]. specialize (Hct e eq_refl). lia.
    - destruct (entries (mCookieTagMap bh) !! _).
      + left. auto.
      + right. split; [cbn [fst]; lia | reflexivity]. }
  split; [exact Htag|]. split; [exact Huntag|].
  intros Hz. split.
  - destruct Htag as [(_ & Hnz & _)|[Hneg _]]; [contradiction | exact Hneg].
  - destruct Huntag as [(_ & Hnz & _)|[Hneg _]]; [contradiction | exact Hneg].
Qed.

End QuotaClaims.

(** ** The platform gate *)

Lemma strcmp_differs_decide (a b : string) :
  strcmp_differs a b = negb (bool_decide (Some a = Some b)).
Proof.
  unfold strcmp_differs. f_equal.
  destruct (String.eqb_spec a b) as [->|Hne].
  - symmetry. apply bool_decide_eq_true. reflexivity.
  - symmetry. apply bool_decide_eq_false. congruence.
Qed.

(** C2. The checks of [initPrograms] are the eight rules of the design
    document tried in their order: whenever a rule fires the verdict is the
    reason of the first one that does, and when none fires the attachment
    phase runs on the directory. On tier V with a 32-bit kernel at 4.19.0
    the 32-bit-kernel rule does not fire for any directory, and with the
    canonical directory no rule fires, for either userspace width. *)
Theorem initPrograms_first_failing_rule (attachPrograms : string → Status) :
  (∀ dev dir,
     match first_failure unsupported_rules dev dir with
     | Some why => initPrograms attachPrograms dev dir = StatusMsg why
     | None => ∃ path, dir = Some path ∧
                       initPrograms attachPrograms dev dir = attachPrograms path
     end) ∧
  (∀ userspace32 dir,
     fires rule_kernel32 (device_of TierV (4, 19, 0) true userspace32) dir = false) ∧
  (∀ userspace32,
     let dev := device_of TierV (4, 19, 0) true userspace32 in
     first_failure unsupported_rules dev (Some "/sys/fs/cgroup") = None ∧
     initPrograms attachPrograms dev (Some "/sys/fs/cgroup") =
       attachPrograms "/sys/fs/cgroup").
Proof.
  split; [|split].
  - intros dev [path|]; [|reflexivity].
    unfold initPrograms. rewrite strcmp_differs_decide.
    cbn [first_failure unsupported_rules rule_kernel32 fires reason].
    rewrite bool_decide_eq_false_2 by discriminate.
    destruct (negb (IsAtLeastT dev)); [reflexivity|].
    destruct (negb (isAtLeastKernelVersion dev 4 9 0)); [reflexivity|].
    destruct (IsAtLeastU dev && negb (isAtLeastKernelVersion dev 4 14 0));
      [reflexivity|].
    destruct (IsAtLeastV dev && negb (isAtLeastKernelVersion dev 4 19 0));
      [reflexivity|].
    destruct (IsAtLeastV dev), (isKernel32Bit dev),
      (isAtLeastKernelVersion dev 5 16 0); cbn [andb]; try reflexivity.
    all: destruct (isUserspace32bit dev && isAtLeastKernelVersion dev 6 2 0);
      [reflexivity|].
    all: destruct (IsAtLeastU dev && _);
      [reflexivity | eexists; split; reflexivity].
  - intros userspace32 dir. reflexivity.
  - intros [|]; split; reflexivity.
Qed.

(** * Concrete runs *)

Module Runs.
Import Examples.
#[local] Existing Instance android.

(** Platform tier U with kernel 4.10.0 is refused by the 4.14.0 floor. *)
Example gate_U_kernel_4_10 :
  initPrograms (λ _, status_ok) (device_of TierU (4, 10, 0) false false)
    (Some "/sys/fs/cgroup") =
  StatusMsg "U+ platform with kernel version < 4.14.0 is unsupported".
Proof. reflexivity. Qed.

(** Platform tier T with kernel 4.9.0 passes every rule. *)
Example gate_T_kernel_4_9 :
  first_failure unsupported_rules (device_of TierT (4, 9, 0) false false)
    (Some "/sys/fs/cgroup") = None.
Proof. reflexivity. Qed.

(** Tier V with a 32-bit kernel at 4.19.0 is still refused when the
    directory is not the canonical one. *)
Example gate_V_other_directory :
  first_failure unsupported_rules (device_of TierV (4, 19, 0) true false)
    (Some "/dev/cg2_bpf") =
  Some "U+ platform with cg2_path != /sys/fs/cgroup is unsupported".
Proof. reflexivity. Qed.

(** A caller without the permission bit that is not a trusted identity may
    not charge another uid. *)
Example delegation_denied :
  tagSocket (tcp4 77) 3 5 7000 5000 (handler 0) = (- EPERM, handler 0).
Proof. vm_compute. reflexivity. Qed.

(** Tag, untag, tag again with another key: the last key is the one stored. *)
Example tag_untag_tag :
  let bh1 := (tagSocket (tcp4 77) 3 5 10001 10001 (handler 0)).2 in
  let bh2 := (untagSocket (tcp4 77) 3 bh1).2 in
  let bh3 := (tagSocket (tcp4 77) 3 9 10002 10002 bh2).2 in
  entries (mCookieTagMap bh3) !! 77 = Some (UidTagValue.mk 10002 9) ∧
  size (entries (mCookieTagMap bh3)) = 1%nat.
Proof. vm_compute. split; reflexivity. Qed.

(** With the 501st entry in place the next tag is denied. *)
Example quota_501_denied :
  (tagSocket (tcp4 77) 3 5 10001 10001 (handler 501)).1 = - EMFILE.
Proof. vm_compute. reflexivity. Qed.

(** C3, as stated, fails: with a per-uid limit of 500 and exactly 500
    entries of the uid in the live counting map, the next tag is not denied;
    it returns 0 and the entry is written. *)
Lemma quota_boundary_500_admitted :
  mPerUidStatsEntriesLimit (handler 500) = 500 ∧
  entryCountOf 10001 (mStatsMapA (handler 500)) = 500%nat ∧
  (tagSocket (tcp4 77) 3 5 10001 10001 (handler 500)).1 = 0 ∧
  (tagSocket (tcp4 77) 3 5 10001 10001 (handler 500)).1 ≠ - EMFILE ∧
  entries (mCookieTagMap (tagSocket (tcp4 77) 3 5 10001 10001 (handler 500)).2)
    !! 77 = Some (UidTagValue.mk 10001 5).
Proof. vm_compute. repeat split; try reflexivity. discriminate. Qed.

Lemma admitted_tcp4 (n : nat) :
  admitted (tcp4 77) 3 10001 10001 (handler n) 77.
Proof.
  repeat split.
  - left. reflexivity.
  - vm_compute. discriminate.
  - exists AF_INET. split; [reflexivity | left; reflexivity].
  - exists IPPROTO_TCP. split; [reflexivity | right; reflexivity].
  - vm_compute. discriminate.
Defined.

(** C1, as stated, fails: on a usable attribution table in which the
    socket's cookie has no entry, [untagSocket] does not return 0; it returns
    [-ENOENT]. *)
Lemma untagSocket_absent_entry_enoent :
  (getSocketCookie (tcp4 77) 3).1 ≠ 0 ∧
  usable (mCookieTagMap (handler 0)) ∧
  entries (mCookieTagMap (handler 0)) !! 77 = None ∧
  untagSocket (tcp4 77) 3 (handler 0) = (- ENOENT, handler 0) ∧
  (untagSocket (tcp4 77) 3 (handler 0)).1 ≠ 0.
Proof.
  split; [vm_compute; discriminate|]. split; [split; reflexivity|].
  split; [reflexivity|]. split; [vm_compute; reflexivity|].
  vm_compute. discriminate.
Qed.

Lemma untagSocket_removes_or_reports_witness :
  (getSocketCookie (tcp4 77) 3).1 ≠ 0 ∧
  usable (mCookieTagMap handler_tagged) ∧
  untagSocket (tcp4 77) 3 handler_tagged =
  (0, with_cookie_entries handler_tagged
        (delete 77 (entries (mCookieTagMap handler_tagged)))).
Proof.
  assert (Hnz : (getSocketCookie (tcp4 77) 3).1 ≠ 0) by (vm_compute; discriminate).
  assert (Hu : usable (mCookieTagMap handler_tagged)) by (split; reflexivity).
  split; [exact Hnz|]. split; [exact Hu|].
  destruct (untagSocket_removes_or_reports (tcp4 77) 3 handler_tagged Hnz Hu)
    as [Hpresent _].
  apply Hpresent. eexists. reflexivity.
Defined.

Lemma trusted_identity_needs_no_lookup_witness :
  trusted (101000 mod PER_USER_RANGE) ∧
  readValue (mUidPermissionMap handler_no_permissions) 1000 = Error EBADF ∧
  hasUpdateDeviceStatsPermission handler_no_permissions 101000 = true.
Proof.
  assert (Ht : trusted (101000 mod PER_USER_RANGE))
    by (right; left; reflexivity).
  split; [exact Ht|]. split; [reflexivity|].
  apply (trusted_identity_needs_no_lookup handler_no_permissions 101000 Ht).
Defined.

Lemma tagSocket_counting_map_selection_witness :
  admitted (tcp4 77) 3 10001 10001 (handler 3) 77 ∧
  readValue (mConfigurationMap (handler 3)) CURRENT_STATS_MAP_CONFIGURATION_KEY
    = Ok SELECT_MAP_A ∧
  tagSocket (tcp4 77) 3 5 10001 10001 (handler 3) =
  quotaThenUpsert (handler 3) 10001 5 77 (scan (mStatsMapA (handler 3)) 10001).
Proof.
  assert (Hcfg : readValue (mConfigurationMap (handler 3))
                   CURRENT_STATS_MAP_CONFIGURATION_KEY = Ok SELECT_MAP_A)
    by reflexivity.
  split; [apply admitted_tcp4|]. split; [exact Hcfg|].
  destruct (tagSocket_counting_map_selection (tcp4 77) 3 5 10001 10001
              (handler 3) 77 SELECT_MAP_A (admitted_tcp4 3) Hcfg)
    as (_ & HA & _).
  apply HA. reflexivity.
Defined.

Lemma tagSocket_error_atomic_witness :
  (tagSocket no_socket 3 5 10001 10001 (handler 0)).1 ≠ 0 ∧
  (tagSocket no_socket 3 5 10001 10001 (handler 0)).2 = handler 0.
Proof.
  assert (Hne : (tagSocket no_socket 3 5 10001 10001 (handler 0)).1 ≠ 0)
    by (vm_compute; discriminate).
  split; [exact Hne|].
  apply (tagSocket_error_atomic no_socket 3 5 10001 10001 (handler 0) Hne).
Defined.

Lemma reaches_quota_check_500 :
  reaches_quota_check (tcp4 77) 3 10001 10001 (handler 500) 77 500 500.
Proof.
  split; [apply admitted_tcp4|].
  exists SELECT_MAP_A. split; [reflexivity|].
  left. split; [reflexivity|]. vm_compute. reflexivity.
Defined.

Lemma quota_denial_is_strict_witness :
  reaches_quota_check (tcp4 77) 3 10001 10001 (handler 500) 77 500 500 ∧
  tagSocket (tcp4 77) 3 5 10001 10001 (handler 500) =
  upsert (handler 500) 10001 5 77.
Proof.
  split; [apply reaches_quota_check_500|].
  destruct (quota_denial_is_strict (tcp4 77) 3 5 10001 10001 (handler 500) 77
              500 500 reaches_quota_check_500)
    as (_ & _ & _ & _ & Hboundary).
  apply Hboundary; [reflexivity | vm_compute; discriminate | reflexivity].
Defined.

Lemma tag_untag_return_codes_witness :
  errno_positive android ∧ posix_kernel no_socket 3 ∧ posix_tables (handler 0) ∧
  (tagSocket no_socket 3 5 10001 10001 (handler 0)).1 < 0 ∧
  (untagSocket no_socket 3 (handler 0)).1 < 0.
Proof.
  assert (He : errno_positive android) by (unfold errno_positive; cbn; lia).
  assert (Hk : posix_kernel no_socket 3).
  { split.
    - intros level name e [= <-]. reflexivity.
    - intros _. reflexivity. }
  assert (Ht : posix_tables (handler 0)) by (repeat split; intros e [=]).
  split; [exact He|]. split; [exact Hk|]. split; [exact Ht|]. split.
  - destruct (tag_untag_return_codes no_socket 3 5 10001 10001 (handler 0)
                He Hk Ht) as (_ & _ & Hzero).
    apply Hzero. reflexivity.
  - destruct (tag_untag_return_codes no_socket 3 5 10001 10001 (handler 0)
                He Hk Ht) as (_ & _ & Hzero).
    apply Hzero. reflexivity.
Defined.

End Runs.

(** * Further properties of the socket operations *)

Lemma neither_false (a x y : Z) :
  negb (a =? x) && negb (a =? y) = false → a = x ∨ a = y.
Proof.
  intros H. apply andb_false_iff in H as [H|H];
    apply negb_false_iff, Z.eqb_eq in H; auto.
Qed.

Section SocketFacts.
Context `{K : Abi}.

(** What a successful [tagSocket] call has passed: with positive error
    numbers, a call that returns 0 was admitted, read a recognised selector,
    scanned the selected map, found both counts within their limits and was
    not refused by the attribution table, which had room for the cookie. *)
Lemma tagSocket_zero_inv (k : Kernel) (sockFd tag chargeUid realUid : Z)
    (bh : BpfHandler) :
  errno_positive K → posix_kernel k sockFd → posix_tables bh →
  (tagSocket k sockFd tag chargeUid realUid bh).1 = 0 →
  ∃ total perUid,
    reaches_quota_check k sockFd chargeUid realUid bh
      (getSocketCookie k sockFd).1 total perUid ∧
    total ≤ mTotalUidStatsEntriesLimit bh ∧
    perUid ≤ mPerUidStatsEntriesLimit bh ∧
    refusal (mCookieTagMap bh) = None ∧
    noRoomFor (mCookieTagMap bh) (getSocketCookie k sockFd).1 = false.
Proof.
  intros (Hperm & Hnoent & Hbadf & Hinval & Hmfile & Hprot & Haf & H2big)
         [Hsock Hzero] (Hct & Hcfg & HA & HB).
  rewrite tagSocket_unfold.
  destruct (negb (isValid (mCookieTagMap bh))) eqn:Hvalid;
    [cbn [fst]; lia|].
  apply negb_false_iff in Hvalid.
  destruct (negb (chargeUid =? realUid) && _) eqn:Hgate; [cbn [fst]; lia|].
  destruct (Z.eqb_spec chargeUid AID_CLAT) as [|Hclat]; [cbn [fst]; lia|].
  destruct (getsockopt k sockFd SOL_SOCKET SO_DOMAIN) as [family|e] eqn:Hfam;
    [|cbn [fst]; apply Hsock in Hfam; lia].
  destruct (negb (family =? AF_INET) && _) eqn:Hfamily; [cbn [fst]; lia|].
  destruct (getsockopt k sockFd SOL_SOCKET SO_PROTOCOL) as [proto|e] eqn:Hproto;
    [|cbn [fst]; apply Hsock in Hproto; lia].
  destruct (negb (proto =? IPPROTO_UDP) && _) eqn:Hprotocol; [cbn [fst]; lia|].
  destruct (Z.eqb_spec (getSocketCookie k sockFd).1 0) as [Hz|Hnz];
    [cbn [fst]; specialize (Hzero Hz); lia|].
  destruct (readValue _ _) as [v|e] eqn:Hread;
    [|cbn [fst]; apply readValue_error_positive in Hread; auto; lia].
  destruct (negb (v =? SELECT_MAP_A) && _) eqn:Hsel; [cbn [fst]; lia|].
  unfold quotaThenUpsert.
  destruct (scan _ chargeUid) as [[total perUid]|e] eqn:Hscan.
  2:{ cbn [fst]. apply scan_error in Hscan.
      destruct (v =? SELECT_MAP_A); apply refusal_positive in Hscan; auto; lia. }
  destruct ((total >? _) || _) eqn:Hquota; [cbn [fst]; lia|].
  unfold upsert.
  destruct (refusal (mCookieTagMap bh)) as [e|] eqn:Hrefusal.
  { cbn [fst]. rewrite (refusal_valid _ Hvalid) in Hrefusal.
    apply Hct in Hrefusal. lia. }
  destruct (noRoomFor (mCookieTagMap bh) _) eqn:Hroom; [cbn [fst]; lia|].
  intros _. exists total, perUid.
  apply orb_false_iff in Hquota as [Ht Hp].
  rewrite Z.gtb_ltb in Ht, Hp. apply Z.ltb_ge in Ht, Hp.
  apply neither_false in Hfamily, Hprotocol.
  assert (Hg : chargeUid = realUid ∨
               hasUpdateDeviceStatsPermission bh realUid = true).
  { apply andb_false_iff in Hgate as [H|H]; apply negb_false_iff in H;
      [left; apply Z.eqb_eq | right]; exact H. }
  split; [|auto].
  split; [repeat split; eauto|].
  exists v. split; [exact Hread|].
  apply neither_false in Hsel.
  destruct (Z.eqb_spec v SELECT_MAP_A) as [HA'|HnA].
  - left. auto.
  - right. destruct Hsel as [Hsel|Hsel]; [contradiction | auto].
Qed.

(** The result of a call that returns 0, under the same conditions. *)
Lemma tagSocket_zero_result (k : Kernel) (sockFd tag chargeUid realUid : Z)
    (bh : BpfHandler) :
  errno_positive K → posix_kernel k sockFd → posix_tables bh →
  (tagSocket k sockFd tag chargeUid realUid bh).1 = 0 →
  tagSocket k sockFd tag chargeUid realUid bh =
  (0, with_cookie_entries bh
        (<[(getSocketCookie k sockFd).1 :=
             UidTagValue.mk (uint32_t chargeUid) tag]>
           (entries (mCookieTagMap bh)))).
Proof.
  intros He Hk Ht Hzero.
  destruct (tagSocket_zero_inv _ _ _ _ _ _ He Hk Ht Hzero)
    as (total & perUid & Hreach & Htotal & Hper & Hrefusal & Hroom).
  rewrite (tagSocket_at_quota_check _ _ _ _ _ _ _ _ _ Hreach).
  unfold quotaThenUpsert, upsert.
  replace ((total >? _) || (perUid >? _)) with false.
  - rewrite Hrefusal, Hroom. reflexivity.
  - symmetry. apply orb_false_iff. rewrite !Z.gtb_ltb, !Z.ltb_ge. lia.
Qed.

(** A call that returns a non-zero code has written nothing. *)
Lemma tagSocket_nonzero_result (k : Kernel) (sockFd tag chargeUid realUid : Z)
    (bh : BpfHandler) :
  (tagSocket k sockFd tag chargeUid realUid bh).1 ≠ 0 →
  (tagSocket k sockFd tag chargeUid realUid bh).2 = bh.
Proof.
  rewrite tagSocket_unfold. unfold quotaThenUpsert, upsert.
  split_tests; try reflexivity.
  all: cbn [fst]; intros Hne; contradiction Hne; reflexivity.
Qed.

(** Whatever way a call ends, the handler it leaves is the one it found,
    with at most the entry of the socket's cookie replaced, and then the
    table had room for it. *)
Lemma tagSocket_handler_cases (k : Kernel) (sockFd tag chargeUid realUid : Z)
    (bh : BpfHandler) :
  (tagSocket k sockFd tag chargeUid realUid bh).2 = bh ∨
  ((tagSocket k sockFd tag chargeUid realUid bh).2 =
   with_cookie_entries bh
     (<[(getSocketCookie k sockFd).1 :=
          UidTagValue.mk (uint32_t chargeUid) tag]>
        (entries (mCookieTagMap bh))) ∧
   noRoomFor (mCookieTagMap bh) (getSocketCookie k sockFd).1 = false).
Proof.
  rewrite tagSocket_unfold. unfold quotaThenUpsert, upsert.
  destruct (noRoomFor (mCookieTagMap bh) _) eqn:Hroom; split_tests; auto.
Qed.

Lemma untagSocket_handler_cases (k : Kernel) (sockFd : Z) (bh : BpfHandler) :
  (untagSocket k sockFd bh).2 = bh ∨
  (untagSocket k sockFd bh).2 =
  with_cookie_entries bh
    (delete (getSocketCookie k sockFd).1 (entries (mCookieTagMap bh))).
Proof.
  rewrite untagSocket_unfold. split_tests; auto.
Qed.

End SocketFacts.

Section SocketProperties.
Context `{K : Abi}.

Lemma with_cookie_entries_twice (bh : BpfHandler)
    (es es' : gmap Z UidTagValue.t) :
  with_cookie_entries (with_cookie_entries bh es) es' =
  with_cookie_entries bh es'.
Proof. reflexivity. Qed.

(** The code a call returns depends on the entries of the attribution
    table only through the room it has for the socket's cookie. *)
Lemma tagSocket_code_same_room (k : Kernel)
    (sockFd tag chargeUid realUid : Z) (bh : BpfHandler)
    (es : gmap Z UidTagValue.t) :
  noRoomFor (mCookieTagMap (with_cookie_entries bh es))
    (getSocketCookie k sockFd).1 =
  noRoomFor (mCookieTagMap bh) (getSocketCookie k sockFd).1 →
  (tagSocket k sockFd tag chargeUid realUid (with_cookie_entries bh es)).1 =
  (tagSocket k sockFd tag chargeUid realUid bh).1.
Proof.
  intros Hroom. rewrite !tagSocket_unfold.
  unfold quotaThenUpsert, upsert. rewrite Hroom.
  unfold hasUpdateDeviceStatsPermission, refusal.
  cbn [with_cookie_entries mCookieTagMap mConfigurationMap mStatsMapA
       mStatsMapB mPerUidStatsEntriesLimit mTotalUidStatsEntriesLimit
       mUidPermissionMap isValid failure].
  split_tests; reflexivity.
Qed.

Lemma noRoomFor_present {V : Type} (m : BpfMap Z V) (key : Z) :
  is_Some (entries m !! key) → noRoomFor m key = false.
Proof.
  intros [v Hv]. unfold noRoomFor.
  rewrite bool_decide_eq_false_2 by congruence. reflexivity.
Qed.

Lemma noRoomFor_has_room {V : Type} (m : BpfMap Z V) (key : Z) :
  has_room m → noRoomFor m key = false.
Proof.
  unfold has_room, noRoomFor. intros Hroom.
  apply andb_false_iff. right. apply N.leb_gt. exact Hroom.
Qed.

(** X1. The delegation gate looks at the identity modulo [PER_USER_RANGE]
    only: the same application under any other user, [uid + n *
    PER_USER_RANGE], gets the same answer. *)
Theorem hasUpdateDeviceStatsPermission_user_alias (bh : BpfHandler)
    (uid n : Z) :
  hasUpdateDeviceStatsPermission bh (uid + n * PER_USER_RANGE) =
  hasUpdateDeviceStatsPermission bh uid.
Proof.
  unfold hasUpdateDeviceStatsPermission. rewrite Z_mod_plus_full. reflexivity.
Qed.

(** X2. A caller that charges another uid is refused with [-EPERM], and
    nothing is written, whenever its identity is not root, system or the DNS
    resolver and the permission lookup for it fails or returns an entry
    without the update-device-stats bit; this holds whatever the socket and
    the state of the attribution table are. *)
Theorem tagSocket_delegation_denied (k : Kernel)
    (sockFd tag chargeUid realUid : Z) (bh : BpfHandler) :
  chargeUid ≠ realUid →
  ¬ trusted (realUid mod PER_USER_RANGE) →
  (∀ p, readValue (mUidPermissionMap bh) (realUid mod PER_USER_RANGE) = Ok p →
        Z.land p BPF_PERMISSION_UPDATE_DEVICE_STATS = 0) →
  tagSocket k sockFd tag chargeUid realUid bh = (- EPERM, bh).
Proof.
  intros Hother Hnot Hbit. rewrite tagSocket_unfold.
  destruct (negb (isValid (mCookieTagMap bh))); [reflexivity|].
  assert (Hgate : hasUpdateDeviceStatsPermission bh realUid = false).
  { unfold hasUpdateDeviceStatsPermission.
    destruct (readValue _ _) as [p|e] eqn:Hread.
    - rewrite (Hbit p eq_refl), Z.eqb_refl. cbn [negb].
      unfold trusted in Hnot. rewrite !orb_false_iff, !Z.eqb_neq. tauto.
    - unfold trusted in Hnot. rewrite !orb_false_iff, !Z.eqb_neq. tauto. }
  apply Z.eqb_neq in Hother. rewrite Hgate, Hother. reflexivity.
Qed.

(** X3. With positive error numbers, [tagSocket] returns 0 only for a
    socket of family [AF_INET] or [AF_INET6] and protocol UDP or TCP with a
    non-zero cookie, charged to a uid other than [AID_CLAT] by the uid itself
    or by an authorised caller, while the selected counting map holds no more
    entries, in total and for the charged uid, than the limits allow; and the
    entry is then in the attribution table. *)
Theorem tagSocket_success_sound (k : Kernel)
    (sockFd tag chargeUid realUid : Z) (bh : BpfHandler) :
  errno_positive K → posix_kernel k sockFd → posix_tables bh →
  (tagSocket k sockFd tag chargeUid realUid bh).1 = 0 →
  let cookie := (getSocketCookie k sockFd).1 in
  (getsockopt k sockFd SOL_SOCKET SO_DOMAIN = Ok AF_INET ∨
   getsockopt k sockFd SOL_SOCKET SO_DOMAIN = Ok AF_INET6) ∧
  (getsockopt k sockFd SOL_SOCKET SO_PROTOCOL = Ok IPPROTO_UDP ∨
   getsockopt k sockFd SOL_SOCKET SO_PROTOCOL = Ok IPPROTO_TCP) ∧
  cookie ≠ 0 ∧
  chargeUid ≠ AID_CLAT ∧
  (chargeUid = realUid ∨ hasUpdateDeviceStatsPermission bh realUid = true) ∧
  (∃ m, (m = mStatsMapA bh ∨ m = mStatsMapB bh) ∧
        uint32_t (Z.of_nat (entryCount m)) ≤ mTotalUidStatsEntriesLimit bh ∧
        uint32_t (Z.of_nat (entryCountOf chargeUid m))
          ≤ mPerUidStatsEntriesLimit bh) ∧
  entries (mCookieTagMap (tagSocket k sockFd tag chargeUid realUid bh).2)
    !! cookie = Some (UidTagValue.mk (uint32_t chargeUid) tag).
Proof.
  intros He Hk Ht Hzero cookie. subst cookie.
  destruct (tagSocket_zero_inv _ _ _ _ _ _ He Hk Ht Hzero)
    as (total & perUid & (Hadm & v & _ & Hsel) & Htotal & Hper & _).
  destruct Hadm as (_ & Hgate & Hclat & (fam & Hfam & Hfam') &
                    (proto & Hproto & Hproto') & _ & Hnz).
  rewrite (tagSocket_zero_result _ _ _ _ _ _ He Hk Ht Hzero).
  repeat split; try assumption.
  - destruct Hfam' as [->| ->]; auto.
  - destruct Hproto' as [->| ->]; auto.
  - destruct Hsel as [(_ & Hscan)|(_ & _ & Hscan)];
      apply scan_ok_counts in Hscan as [-> ->]; eauto.
  - cbn. apply lookup_insert_eq.
Qed.

(** X4. Whatever it returns, [tagSocket] leaves the limits, the two
    counting maps, the configuration and permission tables and the state of
    the attribution table as they were, and changes no entry of the
    attribution table other than that of the socket's cookie. *)
Theorem tagSocket_frame (k : Kernel) (sockFd tag chargeUid realUid : Z)
    (bh : BpfHandler) :
  let bh' := (tagSocket k sockFd tag chargeUid realUid bh).2 in
  same_tables bh bh' ∧
  ∀ cookie, cookie ≠ (getSocketCookie k sockFd).1 →
    entries (mCookieTagMap bh') !! cookie = entries (mCookieTagMap bh) !! cookie.
Proof.
  intros bh'. subst bh'.
  destruct (tagSocket_handler_cases k sockFd tag chargeUid realUid bh)
    as [-> | [-> _]].
  - split; [repeat split|reflexivity].
  - split; [repeat split|].
    intros cookie Hne. cbn. apply lookup_insert_ne. congruence.
Qed.

(** X5. Tagging a socket a second time: the second call returns what it
    would have returned had the first never run, and when it returns 0 the
    handler is the one the second call alone would have left, so the entry
    of the first call is gone (last write wins). *)
Theorem tagSocket_last_write_wins (k : Kernel)
    (sockFd tag1 chargeUid1 realUid1 tag2 chargeUid2 realUid2 : Z)
    (bh : BpfHandler) :
  errno_positive K → posix_kernel k sockFd → posix_tables bh →
  let first := tagSocket k sockFd tag1 chargeUid1 realUid1 bh in
  let second := tagSocket k sockFd tag2 chargeUid2 realUid2 first.2 in
  let alone := tagSocket k sockFd tag2 chargeUid2 realUid2 bh in
  second.1 = alone.1 ∧ (second.1 = 0 → second.2 = alone.2).
Proof.
  intros He Hk Ht first second alone. subst first second alone.
  destruct (tagSocket_handler_cases k sockFd tag1 chargeUid1 realUid1 bh)
    as [-> | [-> Hroom]]; [auto|].
  assert (Hcode :
    (tagSocket k sockFd tag2 chargeUid2 realUid2
       (with_cookie_entries bh
          (<[(getSocketCookie k sockFd).1 :=
               UidTagValue.mk (uint32_t chargeUid1) tag1]>
             (entries (mCookieTagMap bh))))).1 =
    (tagSocket k sockFd tag2 chargeUid2 realUid2 bh).1).
  { apply tagSocket_code_same_room. rewrite Hroom.
    apply noRoomFor_present. cbn. rewrite lookup_insert_eq. eauto. }
  split; [exact Hcode|].
  intros Hzero.
  pose proof Hzero as Hzero'. rewrite Hcode in Hzero'.
  rewrite (tagSocket_zero_result _ _ _ _ _ _ He Hk Ht Hzero').
  rewrite tagSocket_zero_result by assumption.
  cbn [snd]. rewrite with_cookie_entries_twice. cbn [with_cookie_entries
    mCookieTagMap entries]. rewrite insert_insert_eq. reflexivity.
Qed.

(** X6. Untagging a socket right after it was tagged successfully returns 0
    and leaves the attribution table without an entry for the cookie and
    otherwise as it was before the tag; when the socket had no entry before,
    the handler is back exactly where it started. *)
Theorem tag_then_untag (k : Kernel) (sockFd tag chargeUid realUid : Z)
    (bh : BpfHandler) :
  errno_positive K → posix_kernel k sockFd → posix_tables bh →
  (tagSocket k sockFd tag chargeUid realUid bh).1 = 0 →
  let cookie := (getSocketCookie k sockFd).1 in
  let tagged := (tagSocket k sockFd tag chargeUid realUid bh).2 in
  untagSocket k sockFd tagged =
    (0, with_cookie_entries bh (delete cookie (entries (mCookieTagMap bh)))) ∧
  (entries (mCookieTagMap bh) !! cookie = None →
   untagSocket k sockFd tagged = (0, bh)).
Proof.
  intros He Hk Ht Hzero cookie tagged. subst cookie tagged.
  destruct (tagSocket_zero_inv _ _ _ _ _ _ He Hk Ht Hzero)
    as (total & perUid & (Hadm & _) & _ & _ & Hrefusal & _).
  destruct Hadm as (Hvalid & _ & _ & _ & _ & _ & Hnz).
  rewrite (refusal_valid _ Hvalid) in Hrefusal.
  assert (Heq : untagSocket k sockFd
                  (tagSocket k sockFd tag chargeUid realUid bh).2 =
    (0, with_cookie_entries bh
          (delete (getSocketCookie k sockFd).1 (entries (mCookieTagMap bh))))).
  { rewrite (tagSocket_zero_result _ _ _ _ _ _ He Hk Ht Hzero).
    rewrite untagSocket_unfold. cbn [snd with_cookie_entries mCookieTagMap
      isValid failure entries].
    apply Z.eqb_neq in Hnz. rewrite Hnz, Hvalid, Hrefusal. cbn [negb].
    rewrite lookup_insert_eq, delete_insert_eq. reflexivity. }
  split; [exact Heq|].
  intros Habsent. rewrite Heq, delete_id by exact Habsent.
  rewrite with_cookie_entries_id. reflexivity.
Qed.

(** X7. Whatever it returns, [untagSocket] leaves every table other than
    the entries of the attribution table as it was and changes no entry
    other than that of the socket's cookie. *)
Theorem untagSocket_frame (k : Kernel) (sockFd : Z) (bh : BpfHandler) :
  let cookie := (getSocketCookie k sockFd).1 in
  let bh' := (untagSocket k sockFd bh).2 in
  same_tables bh bh' ∧
  (∀ other, other ≠ cookie →
     entries (mCookieTagMap bh') !! other = entries (mCookieTagMap bh) !! other).
Proof.
  intros cookie bh'. subst cookie bh'.
  split.
  - destruct (untagSocket_handler_cases k sockFd bh) as [-> | ->];
      repeat split.
  - intros other Hne.
    destruct (untagSocket_handler_cases k sockFd bh) as [-> | ->];
      [reflexivity|].
    cbn. apply lookup_delete_ne. congruence.
Qed.

(** X20. With positive error numbers, when [untagSocket] returns 0 the
    socket's cookie is not zero, the attribution table is valid, the cookie
    had an entry in it and has none any more. *)
Theorem untagSocket_success_removes (k : Kernel) (sockFd : Z)
    (bh : BpfHandler) :
  errno_positive K → posix_kernel k sockFd → posix_tables bh →
  (untagSocket k sockFd bh).1 = 0 →
  let cookie := (getSocketCookie k sockFd).1 in
  cookie ≠ 0 ∧
  isValid (mCookieTagMap bh) = true ∧
  is_Some (entries (mCookieTagMap bh) !! cookie) ∧
  entries (mCookieTagMap (untagSocket k sockFd bh).2) !! cookie = None.
Proof.
  intros (Hperm & Hnoent & _) [_ Hzero] (Hct & _) Hcode cookie. subst cookie.
  revert Hcode. rewrite untagSocket_unfold.
  destruct (Z.eqb_spec (getSocketCookie k sockFd).1 0) as [Hz|Hnz];
    [cbn [fst]; specialize (Hzero Hz); lia|].
  destruct (isValid (mCookieTagMap bh)); cbn [negb]; [|cbn [fst]; lia].
  destruct (failure (mCookieTagMap bh)) as [e|] eqn:Hfail.
  - cbn [fst]. specialize (Hct e eq_refl). lia.
  - destruct (entries (mCookieTagMap bh) !! (getSocketCookie k sockFd).1)
      as [v|] eqn:Hentry; [|cbn [fst]; lia].
    intros _. split; [exact Hnz|]. split; [reflexivity|].
    split; [eauto|]. cbn. apply lookup_delete_eq.
Qed.

(** X8. On a counting map that answers and holds fewer than [2^32]
    entries, the scan returns the exact number of entries and the exact
    number of entries of the charged uid, and the second never exceeds the
    first. *)
Theorem scan_exact_counts (m : BpfMap StatsKey.t StatsValue.t)
    (chargeUid : Z) :
  refusal m = None →
  Z.of_nat (entryCount m) < 2 ^ 32 →
  scan m chargeUid =
    Ok (Z.of_nat (entryCount m), Z.of_nat (entryCountOf chargeUid m)) ∧
  (entryCountOf chargeUid m ≤ entryCount m)%nat.
Proof.
  intros Hr Hsmall.
  assert (Hle : (entryCountOf chargeUid m ≤ entryCount m)%nat).
  { unfold entryCountOf, entryCount.
    apply map_subseteq_size, map_filter_subseteq. }
  split; [|exact Hle].
  rewrite (scan_counts _ _ Hr). unfold uint32_t.
  rewrite !Z.mod_small by lia. reflexivity.
Qed.


End SocketProperties.

(** * Properties of initialisation *)

Section AttachFacts.
Context `{P : ProgPaths}.
Variable sys : ProgKernel.
Hypothesis Hposix : posix_progs sys.

Lemma isOk_statusFromErrno (e : Z) (msg : string) :
  e ≠ 0 → isOk (statusFromErrno e msg) = false.
Proof. intros He. cbn. apply Z.eqb_neq. exact He. Qed.

Lemma runs_ok : runs sys ok [] True.
Proof. intros log. exists []. rewrite app_nil_r. cbn. auto. Qed.

Lemma runs_fail (e : Z) (msg : string) (plan : list Attachment) (V : Prop) :
  e ≠ 0 → some_call_fails sys →
  runs sys (fail (statusFromErrno e msg)) plan V.
Proof.
  intros He Hf log. exists []. rewrite app_nil_r. cbn [fail fst snd].
  rewrite isOk_statusFromErrno by exact He.
  split; [reflexivity|]. split; [apply prefix_nil | exact Hf].
Qed.

Lemma runs_checkProgramAccessible (path : string) :
  runs sys (checkProgramAccessible sys path) [] True.
Proof.
  unfold checkProgramAccessible.
  destruct (retrieveProgram sys path) as [fd|e] eqn:Hget; [apply runs_ok|].
  apply runs_fail.
  - destruct Hposix as (_ & Hg & _). eauto.
  - right. left. eauto.
Qed.

Lemma runs_attachProgramToCgroup (path : string) (cg : Z)
    (type : bpf_attach_type) :
  runs sys (attachProgramToCgroup sys path cg type) [(type, path)] True.
Proof.
  destruct Hposix as (_ & Hg & Ha).
  intros log. unfold attachProgramToCgroup.
  destruct (retrieveProgram sys path) as [fd|e] eqn:Hget.
  - destruct (attachProgram sys type fd cg) as [[]|e] eqn:Hatt.
    + exists [(type, path)]. cbn. auto.
    + exists []. rewrite app_nil_r. cbn [fst snd].
      rewrite isOk_statusFromErrno by eauto.
      split; [reflexivity|]. split; [apply prefix_nil|].
      right. right. eauto 6.
  - exists []. rewrite app_nil_r. cbn [fst snd].
    rewrite isOk_statusFromErrno by eauto.
    split; [reflexivity|]. split; [apply prefix_nil|].
    right. left. eauto.
Qed.

Lemma runs_abortIf (cond : bool) : runs sys (abortIf cond) [] (cond = false).
Proof.
  intros log. exists []. rewrite app_nil_r. unfold abortIf.
  destruct cond; cbn; auto using prefix_nil.
Qed.

(** Two pieces in sequence append their plans in sequence. *)
Lemma runs_seq (a b : Attach Status) (pa pb : list Attachment) (Va Vb : Prop) :
  runs sys a pa Va → runs sys b pb Vb →
  runs sys (RETURN_IF_NOT_OK a b) (pa ++ pb) (Va ∧ Vb).
Proof.
  intros Ha Hb log. unfold RETURN_IF_NOT_OK.
  destruct (Ha log) as (la & Hla & Hpa & Houta).
  destruct (a log) as [[sa|] loga]; cbn [fst snd] in *; subst loga.
  - destruct (isOk sa) eqn:Hsa.
    + destruct Houta as (_ & -> & HVa).
      destruct (Hb (log ++ pa)) as (lb & Hlb & Hpb & Houtb).
      exists (pa ++ lb). rewrite Hlb, app_assoc.
      split; [reflexivity|]. split; [apply prefix_app, Hpb|].
      destruct ((b (log ++ pa)).1) as [sb|].
      * destruct (isOk sb); [|exact Houtb].
        destruct Houtb as (-> & -> & HVb). auto.
      * tauto.
    + exists la. cbn [fst snd]. rewrite Hsa.
      split; [reflexivity|]. split; [|exact Houta].
      apply prefix_app_r, Hpa.
  - exists la. split; [reflexivity|]. split; [apply prefix_app_r, Hpa | tauto].
Qed.

Lemma runs_iff (c : Attach Status) (plan plan' : list Attachment)
    (V V' : Prop) :
  plan = plan' → (V ↔ V') → runs sys c plan V → runs sys c plan' V'.
Proof.
  intros <- HV Hc log. destruct (Hc log) as (l & Hl & Hp & Hout).
  exists l. split; [exact Hl|]. split; [exact Hp|].
  destruct ((c log).1) as [s|]; [|tauto].
  destruct (isOk s); tauto.
Qed.

(** A block run only on kernels that are recent enough. *)
Lemma runs_if (cond : bool) (c : Attach Status) (plan : list Attachment)
    (V : Prop) :
  runs sys c plan V →
  runs sys (if cond then c else ok) (if cond then plan else [])
    (cond = true → V).
Proof.
  intros Hc. destruct cond.
  - eapply runs_iff; [reflexivity | | exact Hc]. tauto.
  - eapply runs_iff; [reflexivity | | exact runs_ok]. split; [discriminate | auto].
Qed.

(** The attachment phase on a directory that opens. *)
Lemma runs_attachPrograms (dev : Device) (path : string) (cg : Z) :
  open_directory sys path = Ok cg →
  runs sys (attachPrograms sys dev path) (attach_plan dev) (verified sys dev cg).
Proof.
  intros Hopen. unfold attachPrograms. rewrite Hopen.
  eapply runs_iff; cycle 2.
  - repeat first [ apply runs_seq
                 | apply runs_if
                 | apply runs_checkProgramAccessible
                 | apply runs_attachProgramToCgroup
                 | apply runs_abortIf
                 | apply runs_ok ].
  - unfold attach_plan.
    destruct (isAtLeastKernelVersion dev 4 14 0),
      (isAtLeastKernelVersion dev 4 19 0),
      (isAtLeastKernelVersion dev 5 8 0); reflexivity.
  - unfold verified. rewrite !Z.leb_gt. tauto.
Qed.

End AttachFacts.

Section CompletionFacts.
Context `{P : ProgPaths}.
Variable sys : ProgKernel.

Lemma completes_ok : completes ok True.
Proof. intros log. left. unfold ok. eauto. Qed.

Lemma completes_checkProgramAccessible (path : string) :
  accessible sys path → completes (checkProgramAccessible sys path) True.
Proof.
  intros [prog Hget]. unfold checkProgramAccessible. rewrite Hget.
  apply completes_ok.
Qed.

Lemma completes_attachProgramToCgroup (path : string) (cg : Z)
    (type : bpf_attach_type) :
  attachable sys cg (type, path) →
  completes (attachProgramToCgroup sys path cg type) True.
Proof.
  intros (prog & Hget & Hatt) log. cbn [fst snd] in Hget, Hatt.
  left. unfold attachProgramToCgroup. rewrite Hget, Hatt. eauto.
Qed.

Lemma completes_abortIf (cond : bool) : completes (abortIf cond) (cond = false).
Proof.
  intros log. unfold abortIf. destruct cond; [right | left]; cbn; eauto.
Qed.

(** Two such pieces in sequence: the second runs when the first returned. *)
Lemma completes_seq (a b : Attach Status) (Va Vb : Prop) :
  completes a Va → completes b Vb →
  completes (RETURN_IF_NOT_OK a b) (Va ∧ Vb).
Proof.
  intros Ha Hb log. unfold RETURN_IF_NOT_OK.
  destruct (Ha log) as [[[log' Hrun] HVa]|[Habort HVa]].
  - rewrite Hrun. cbn [isOk].
    destruct (Hb log') as [[Hrun' HVb]|[Habort' HVb]]; [left | right]; tauto.
  - right. destruct (a log) as [[s|] log']; cbn [fst] in *;
      [discriminate | tauto].
Qed.

Lemma completes_iff (c : Attach Status) (V V' : Prop) :
  (V ↔ V') → completes c V → completes c V'.
Proof.
  intros HV Hc log. destruct (Hc log) as [[Hrun H]|[Habort H]];
    [left | right]; tauto.
Qed.

(** The attachment phase on a directory that opens, when the calls it makes
    on this device succeed. *)
Lemma completes_attachPrograms (dev : Device) (path : string) (cg : Z) :
  open_directory sys path = Ok cg →
  planned_calls_succeed sys dev cg →
  completes (attachPrograms sys dev path) (verified sys dev cg).
Proof.
  intros Hopen [Hchecked Hplan].
  unfold checked_programs in Hchecked. rewrite !Forall_cons in Hchecked.
  destruct Hchecked as (Hc1 & Hc2 & Hc3 & Hc4 & _).
  unfold attachPrograms, verified. rewrite Hopen.
  unfold attach_plan in Hplan.
  destruct (isAtLeastKernelVersion dev 4 14 0),
    (isAtLeastKernelVersion dev 4 19 0),
    (isAtLeastKernelVersion dev 5 8 0);
    cbn [app] in Hplan; rewrite !Forall_cons in Hplan;
    (eapply completes_iff;
     [|repeat first [ apply completes_seq
                    | apply completes_checkProgramAccessible; assumption
                    | apply completes_attachProgramToCgroup; tauto
                    | apply completes_abortIf
                    | apply completes_ok ]]);
    rewrite ?Z.leb_gt; intuition discriminate.
Qed.

End CompletionFacts.

Section InitFacts.
Context `{P : ProgPaths}.

(** The checks of [initPrograms] alone: the reason of the first rule that
    fires, or [status_ok] when none does. *)
Lemma initPrograms_gate (dev : Device) (dir : option string) :
  initPrograms (λ _, status_ok) dev dir =
  match first_failure unsupported_rules dev dir with
  | Some why => StatusMsg why
  | None => status_ok
  end.
Proof.
  destruct dir as [path|]; [|reflexivity].
  unfold initPrograms. rewrite strcmp_differs_decide.
  cbn [first_failure unsupported_rules rule_kernel32 fires reason].
  rewrite (bool_decide_eq_false_2 (Some path = None)) by discriminate.
  destruct (negb (IsAtLeastT dev)); [reflexivity|].
  destruct (negb (isAtLeastKernelVersion dev 4 9 0)); [reflexivity|].
  destruct (IsAtLeastU dev && negb (isAtLeastKernelVersion dev 4 14 0));
    [reflexivity|].
  destruct (IsAtLeastV dev && negb (isAtLeastKernelVersion dev 4 19 0));
    [reflexivity|].
  destruct (IsAtLeastV dev), (isKernel32Bit dev),
    (isAtLeastKernelVersion dev 5 16 0); cbn [andb]; try reflexivity.
  all: destruct (isUserspace32bit dev && isAtLeastKernelVersion dev 6 2 0);
    [reflexivity|].
  all: destruct (IsAtLeastU dev && _); reflexivity.
Qed.

Lemma initPrograms_sys_refused (sys : ProgKernel) (dev : Device)
    (dir : option string) (why : string) :
  first_failure unsupported_rules dev dir = Some why →
  initPrograms_sys sys dev dir = fail (StatusMsg why).
Proof.
  intros Hfire. unfold initPrograms_sys.
  rewrite initPrograms_gate, Hfire. reflexivity.
Qed.

Lemma initPrograms_sys_passed (sys : ProgKernel) (dev : Device)
    (dir : option string) :
  first_failure unsupported_rules dev dir = None →
  ∃ path, dir = Some path ∧
          initPrograms_sys sys dev dir = attachPrograms sys dev path.
Proof.
  intros Hnone. unfold initPrograms_sys. rewrite initPrograms_gate, Hnone.
  destruct dir as [path|]; [eauto | vm_compute in Hnone; discriminate].
Qed.

(** The whole of [initPrograms], whatever the checks say. *)
Lemma runs_initPrograms_sys (sys : ProgKernel) (dev : Device)
    (dir : option string) (log : list Attachment) :
  posix_progs sys →
  ∃ l, (initPrograms_sys sys dev dir log).2 = log ++ l ∧
       l `prefix_of` attach_plan dev ∧
       match (initPrograms_sys sys dev dir log).1 with
       | Aborted =>
           ∃ path cg, dir = Some path ∧ open_directory sys path = Ok cg ∧
                      ¬ verified sys dev cg
       | Returned s =>
           if isOk s
           then s = status_ok ∧ l = attach_plan dev ∧
                first_failure unsupported_rules dev dir = None ∧
                ∃ path cg, dir = Some path ∧
                           open_directory sys path = Ok cg ∧
                           verified sys dev cg
           else True
       end.
Proof.
  intros Hposix.
  destruct (first_failure unsupported_rules dev dir) as [why|] eqn:Hgate.
  - rewrite (initPrograms_sys_refused _ _ _ _ Hgate).
    exists []. rewrite app_nil_r. cbn. auto using prefix_nil.
  - destruct (initPrograms_sys_passed sys _ _ Hgate) as (path & -> & ->).
    destruct (open_directory sys path) as [cg|e] eqn:Hopen.
    + destruct (runs_attachPrograms sys Hposix dev path cg Hopen log)
        as (l & Hl & Hp & Hout).
      exists l. split; [exact Hl|]. split; [exact Hp|].
      destruct ((attachPrograms sys dev path log).1) as [s|]; [|eauto].
      destruct (isOk s); [|exact I].
      destruct Hout as (-> & -> & HV). eauto 8.
    + exists []. rewrite app_nil_r. unfold attachPrograms. rewrite Hopen.
      cbn [fail fst snd]. rewrite isOk_statusFromErrno.
      * auto using prefix_nil.
      * destruct Hposix as (Ho & _). eauto.
Qed.

(** Opening the tables, on a handler whose attribution table is not open. *)
Lemma initMaps_spec (fs : PinnedMaps) (bh : BpfHandler) :
  posix_pinned fs →
  isValid (mCookieTagMap bh) = false →
  (initMaps fs bh).1 =
    match first_missing fs with
    | Some (err, msg) => statusFromErrno err msg
    | None => status_ok
    end ∧
  (if isOk (initMaps fs bh).1
   then (initMaps fs bh).1 = status_ok ∧ all_valid (initMaps fs bh).2
   else isValid (mCookieTagMap (initMaps fs bh).2) = false) ∧
  mPerUidStatsEntriesLimit (initMaps fs bh).2 = mPerUidStatsEntriesLimit bh ∧
  mTotalUidStatsEntriesLimit (initMaps fs bh).2 = mTotalUidStatsEntriesLimit bh.
Proof.
  intros (HA & HB & HC & HP & HT) Hclosed.
  unfold initMaps, first_missing, BpfMap_init, all_valid.
  destruct (STATS_MAP_A_PATH fs) as [tA|eA mA] eqn:EA; cbn.
  2:{ assert (Hne : (eA =? 0) = false) by (apply Z.eqb_neq; eauto).
      rewrite ?Hne. cbn. rewrite ?Hne. auto. }
  destruct (STATS_MAP_B_PATH fs) as [tB|eB mB] eqn:EB; cbn.
  2:{ assert (Hne : (eB =? 0) = false) by (apply Z.eqb_neq; eauto).
      rewrite ?Hne. cbn. rewrite ?Hne. auto. }
  destruct (CONFIGURATION_MAP_PATH fs) as [tC|eC mC] eqn:EC; cbn.
  2:{ assert (Hne : (eC =? 0) = false) by (apply Z.eqb_neq; eauto).
      rewrite ?Hne. cbn. rewrite ?Hne. auto. }
  destruct (UID_PERMISSION_MAP_PATH fs) as [tP|eP mP] eqn:EP; cbn.
  2:{ assert (Hne : (eP =? 0) = false) by (apply Z.eqb_neq; eauto).
      rewrite ?Hne. cbn. rewrite ?Hne. auto. }
  destruct (COOKIE_TAG_MAP_PATH fs) as [tT|eT mT] eqn:ET; cbn.
  2:{ assert (Hne : (eT =? 0) = false) by (apply Z.eqb_neq; eauto).
      rewrite ?Hne. cbn. rewrite ?Hne. auto. }
  auto 10.
Qed.

End InitFacts.

Section InitProperties.
Context `{P : ProgPaths}.

Lemma checkProgramAccessible_seq (sys : ProgKernel) (path : string)
    (rest : Attach Status) (log : list Attachment) :
  posix_progs sys →
  RETURN_IF_NOT_OK (checkProgramAccessible sys path) rest log =
  match retrieveProgram sys path with
  | Ok _ => rest log
  | Error e =>
      (Returned (statusFromErrno e ("Failed to get program from " +:+ path)),
       log)
  end.
Proof.
  intros (_ & Hget & _). unfold RETURN_IF_NOT_OK, checkProgramAccessible.
  destruct (retrieveProgram sys path) as [fd|e] eqn:Hr; [reflexivity|].
  cbn [fail]. rewrite isOk_statusFromErrno by eauto. reflexivity.
Qed.

Lemma initPrograms_success_plan (sys : ProgKernel) (dev : Device)
    (dir : option string) (log log' : list Attachment) (s : Status) :
  posix_progs sys →
  initPrograms_sys sys dev dir log = (Returned s, log') →
  isOk s = true →
  s = status_ok ∧ log' = log ++ attach_plan dev ∧
  first_failure unsupported_rules dev dir = None.
Proof.
  intros Hposix Hrun Hok.
  destruct (runs_initPrograms_sys sys dev dir log Hposix) as (l & Hl & _ & Hout).
  rewrite Hrun in Hl, Hout. cbn [fst snd] in Hl, Hout. rewrite Hok in Hout.
  destruct Hout as (-> & -> & Hgate & _). auto.
Qed.

(** X10. When one of the eight rules fires, [initPrograms] returns the
    reason of the first that does and attaches nothing. *)
Theorem initPrograms_refused_attaches_nothing (sys : ProgKernel)
    (dev : Device) (dir : option string) (why : string)
    (log : list Attachment) :
  first_failure unsupported_rules dev dir = Some why →
  initPrograms_sys sys dev dir log = (Returned (StatusMsg why), log).
Proof.
  intros Hfire. rewrite (initPrograms_sys_refused _ _ _ _ Hfire). reflexivity.
Qed.

(** X11. The four packet-filter programs are looked up before anything is
    attached: when one of them cannot be retrieved, [initPrograms] returns a
    failure and has attached nothing, on every device and directory. *)
Theorem initPrograms_checks_before_attaching (sys : ProgKernel)
    (dev : Device) (dir : option string) (log : list Attachment)
    (path : string) (e : Z) :
  posix_progs sys →
  path ∈ checked_programs →
  retrieveProgram sys path = Error e →
  (initPrograms_sys sys dev dir log).2 = log ∧
  ∃ s, (initPrograms_sys sys dev dir log).1 = Returned s ∧ isOk s = false.
Proof.
  intros Hposix Hin Herr.
  destruct (first_failure unsupported_rules dev dir) as [why|] eqn:Hgate.
  { rewrite (initPrograms_sys_refused _ _ _ _ Hgate). cbn. eauto. }
  destruct (initPrograms_sys_passed sys _ _ Hgate) as (cg2_path & -> & ->).
  unfold attachPrograms.
  destruct (open_directory sys cg2_path) as [cg|e'] eqn:Hopen.
  2:{ cbn [fail fst snd]. split; [reflexivity|]. eexists. split; [reflexivity|].
      apply isOk_statusFromErrno. destruct Hposix as (Ho & _). eauto. }
  assert (Hfails : ∀ p e0 msg, retrieveProgram sys p = Error e0 →
            isOk (statusFromErrno e0 msg) = false).
  { intros p e0 msg Hp. apply isOk_statusFromErrno.
    destruct Hposix as (_ & Hg & _). eauto. }
  unfold checked_programs in Hin. rewrite !elem_of_cons in Hin.
  rewrite !checkProgramAccessible_seq by exact Hposix.
  destruct (retrieveProgram sys XT_BPF_ALLOWLIST_PROG_PATH) eqn:H1;
    [|cbn [fst snd]; eauto].
  destruct (retrieveProgram sys XT_BPF_DENYLIST_PROG_PATH) eqn:H2;
    [|cbn [fst snd]; eauto].
  destruct (retrieveProgram sys XT_BPF_EGRESS_PROG_PATH) eqn:H3;
    [|cbn [fst snd]; eauto].
  destruct (retrieveProgram sys XT_BPF_INGRESS_PROG_PATH) eqn:H4;
    [|cbn [fst snd]; eauto].
  destruct Hin as [->|[->|[->|[->|Hin]]]]; try congruence.
  apply elem_of_nil in Hin. contradiction.
Qed.

(** X12. With non-zero error numbers, when [initPrograms] returns an ok
    status no rule fired, the directory was opened, the attachments made are
    exactly, and in this order, egress and ingress accounting, the
    socket-create hook on kernels from 4.14.0, the two bind hooks on kernels
    from 4.19.0 and the socket-option hook on kernels from 5.8.0, and every
    query of the 4.19 and 5.8 blocks found a program. *)
Theorem initPrograms_success_attaches_plan (sys : ProgKernel) (dev : Device)
    (dir : option string) (log log' : list Attachment) (s : Status) :
  posix_progs sys →
  initPrograms_sys sys dev dir log = (Returned s, log') →
  isOk s = true →
  s = status_ok ∧
  log' = log ++ attach_plan dev ∧
  first_failure unsupported_rules dev dir = None ∧
  ∃ path cg, dir = Some path ∧ open_directory sys path = Ok cg ∧
             verified sys dev cg.
Proof.
  intros Hposix Hrun Hok.
  destruct (runs_initPrograms_sys sys dev dir log Hposix) as (l & Hl & _ & Hout).
  rewrite Hrun in Hl, Hout. cbn [fst snd] in Hl, Hout. rewrite Hok in Hout.
  destruct Hout as (-> & -> & Hgate & Hverified). auto.
Qed.

(** X13. With non-zero error numbers, whatever way [initPrograms] ends, the
    attachments it has made are an initial part of that same list: hooks are
    attached in the fixed order, none is skipped, and the optional hooks are
    never attached on a kernel below their floor. *)
Theorem initPrograms_attachments_prefix (sys : ProgKernel) (dev : Device)
    (dir : option string) (log : list Attachment) :
  posix_progs sys →
  ∃ l, (initPrograms_sys sys dev dir log).2 = log ++ l ∧
       l `prefix_of` attach_plan dev.
Proof.
  intros Hposix.
  destruct (runs_initPrograms_sys sys dev dir log Hposix) as (l & Hl & Hp & _).
  eauto.
Qed.

(** X14. [initPrograms] ends the process only over a failed verification:
    if every query of the 4.19 and 5.8 blocks that applies to the device
    finds a program, it returns. In particular it always returns on a kernel
    below 4.19.0 and 5.8.0. *)
Theorem initPrograms_no_abort_when_verified (sys : ProgKernel) (dev : Device)
    (dir : option string) (log : list Attachment) :
  posix_progs sys →
  (∀ path cg, dir = Some path → open_directory sys path = Ok cg →
              verified sys dev cg) →
  (initPrograms_sys sys dev dir log).1 ≠ Aborted.
Proof.
  intros Hposix Hverified Habort.
  destruct (runs_initPrograms_sys sys dev dir log Hposix) as (l & _ & _ & Hout).
  rewrite Habort in Hout.
  destruct Hout as (path & cg & Hdir & Hopen & Hnot). eauto.
Qed.

(** X15. When no rule fires, the directory opens and every call
    [initPrograms] makes on this device to check and to attach its programs
    is answered without error, but a query that applies to the device finds
    no program, [initPrograms] ends the process.  Nothing is assumed of the
    calls it does not make. *)
Theorem initPrograms_aborts_on_failed_verification (sys : ProgKernel)
    (dev : Device) (path : string) (cg : Z) (log : list Attachment) :
  planned_calls_succeed sys dev cg →
  first_failure unsupported_rules dev (Some path) = None →
  open_directory sys path = Ok cg →
  ¬ verified sys dev cg →
  (initPrograms_sys sys dev (Some path) log).1 = Aborted.
Proof.
  intros Hplanned Hgate Hopen Hnot.
  destruct (initPrograms_sys_passed sys _ _ Hgate) as (p & [= <-] & ->).
  destruct (completes_attachPrograms sys dev path cg Hopen Hplanned log)
    as [[_ HV]|[Habort _]]; [contradiction | exact Habort].
Qed.

(** X16. With non-zero error numbers, [initMaps] returns the failure of the
    first table, in the order counting map A, counting map B, configuration,
    permissions, attribution, that is not pinned, and [status_ok] when all
    five are; it never changes the limits. *)
Theorem initMaps_first_missing (fs : PinnedMaps) (bh : BpfHandler) :
  posix_pinned fs →
  (initMaps fs bh).1 =
    match first_missing fs with
    | Some (err, msg) => statusFromErrno err msg
    | None => status_ok
    end ∧
  mPerUidStatsEntriesLimit (initMaps fs bh).2 = mPerUidStatsEntriesLimit bh ∧
  mTotalUidStatsEntriesLimit (initMaps fs bh).2 = mTotalUidStatsEntriesLimit bh.
Proof.
  intros (HA & HB & HC & HP & HT).
  unfold initMaps, first_missing, BpfMap_init.
  destruct (STATS_MAP_A_PATH fs) as [tA|eA mA] eqn:EA; cbn.
  2:{ rewrite (proj2 (Z.eqb_neq eA 0)) by eauto. auto. }
  destruct (STATS_MAP_B_PATH fs) as [tB|eB mB] eqn:EB; cbn.
  2:{ rewrite (proj2 (Z.eqb_neq eB 0)) by eauto. auto. }
  destruct (CONFIGURATION_MAP_PATH fs) as [tC|eC mC] eqn:EC; cbn.
  2:{ rewrite (proj2 (Z.eqb_neq eC 0)) by eauto. auto. }
  destruct (UID_PERMISSION_MAP_PATH fs) as [tP|eP mP] eqn:EP; cbn.
  2:{ rewrite (proj2 (Z.eqb_neq eP 0)) by eauto. auto. }
  destruct (COOKIE_TAG_MAP_PATH fs) as [tT|eT mT] eqn:ET; cbn.
  2:{ rewrite (proj2 (Z.eqb_neq eT 0)) by eauto. auto. }
  auto.
Qed.

(** X17. The attribution table is opened last: on a handler whose
    attribution table was not open, once [initMaps] has run the attribution
    table is valid only if all five tables are, and exactly when [initMaps]
    returned an ok status. *)
Theorem initMaps_cookie_map_last (fs : PinnedMaps) (bh : BpfHandler) :
  posix_pinned fs →
  isValid (mCookieTagMap bh) = false →
  let status := (initMaps fs bh).1 in
  let bh' := (initMaps fs bh).2 in
  (isValid (mCookieTagMap bh') = true → all_valid bh' ∧ status = status_ok) ∧
  (isOk status = true ↔ isValid (mCookieTagMap bh') = true).
Proof.
  intros Hposix Hclosed status bh'. subst status bh'.
  destruct (initMaps_spec fs bh Hposix Hclosed) as (_ & Hcase & _).
  destruct (isOk (initMaps fs bh).1).
  - destruct Hcase as [Hs Hall]. pose proof Hall as (_ & _ & _ & _ & Hv).
    split; [auto|]. split; auto.
  - split; [congruence|]. split; [discriminate | congruence].
Qed.

End InitProperties.

Section InitComposition.
Context `{K : Abi} `{P : ProgPaths}.

(** X18. A handler whose [init] did not return [status_ok] refuses every
    tag: starting from a freshly constructed handler, if [init] ends any other
    way, every later [tagSocket] call returns [-EPERM] and writes nothing,
    and so does [untagSocket] for a socket whose cookie resolves. *)
Theorem init_failure_blocks_tagging (sys : ProgKernel) (fs : PinnedMaps)
    (dev : Device) (dir : option string) (perUidLimit totalLimit : Z)
    (log : list Attachment) :
  posix_pinned fs →
  let result :=
    BpfHandler_init sys fs dev dir
      (BpfHandler_constructed perUidLimit totalLimit) log in
  result.1.1 ≠ Returned status_ok →
  ∀ k sockFd,
    (∀ tag chargeUid realUid,
       tagSocket k sockFd tag chargeUid realUid result.1.2 =
       (- EPERM, result.1.2)) ∧
    ((getSocketCookie k sockFd).1 ≠ 0 →
     untagSocket k sockFd result.1.2 = (- EPERM, result.1.2)).
Proof.
  intros Hposix result Hfailed k sockFd.
  assert (Hclosed : isValid (mCookieTagMap result.1.2) = false).
  { subst result. unfold BpfHandler_init in *.
    destruct (initPrograms_sys sys dev dir log) as [[s|] log1];
      [|reflexivity].
    destruct (isOk s); cbn [negb] in *; [|reflexivity].
    pose proof (initMaps_spec fs (BpfHandler_constructed perUidLimit totalLimit)
                  Hposix eq_refl) as (_ & Hcase & _).
    destruct (initMaps fs (BpfHandler_constructed perUidLimit totalLimit))
      as [s' bh'].
    cbn [fst snd] in *.
    destruct (isOk s'); cbn [negb fst snd] in *; [|exact Hcase].
    contradiction Hfailed. reflexivity. }
  split.
  - intros tag chargeUid realUid. rewrite tagSocket_unfold, Hclosed.
    reflexivity.
  - intros Hnz. rewrite untagSocket_unfold, Hclosed.
    apply Z.eqb_neq in Hnz. rewrite Hnz. reflexivity.
Qed.

(** X19. With non-zero error numbers, when [init] on a freshly constructed
    handler returns [status_ok], no rule fired, the attachments made are the
    whole list for the device, all five tables are open, and the limits are
    the ones the handler was constructed with. *)
Theorem init_success (sys : ProgKernel) (fs : PinnedMaps) (dev : Device)
    (dir : option string) (perUidLimit totalLimit : Z)
    (log : list Attachment) :
  posix_progs sys → posix_pinned fs →
  let result :=
    BpfHandler_init sys fs dev dir
      (BpfHandler_constructed perUidLimit totalLimit) log in
  result.1.1 = Returned status_ok →
  first_failure unsupported_rules dev dir = None ∧
  result.2 = log ++ attach_plan dev ∧
  all_valid result.1.2 ∧
  first_missing fs = None ∧
  mPerUidStatsEntriesLimit result.1.2 = perUidLimit ∧
  mTotalUidStatsEntriesLimit result.1.2 = totalLimit.
Proof.
  intros Hprogs Hpinned result Hok. subst result.
  unfold BpfHandler_init in *.
  destruct (initPrograms_sys sys dev dir log) as [[s|] log1] eqn:Hrun;
    [|discriminate].
  destruct (isOk s) eqn:Hs; cbn [negb] in *.
  2:{ cbn [fst snd] in Hok. injection Hok as ->. discriminate. }
  destruct (initPrograms_success_plan sys dev dir log log1 s Hprogs Hrun Hs)
    as (_ & -> & Hgate).
  pose proof (initMaps_spec fs (BpfHandler_constructed perUidLimit totalLimit)
                Hpinned eq_refl) as (Hstatus & Hcase & Hper & Htot).
  destruct (initMaps fs (BpfHandler_constructed perUidLimit totalLimit))
    as [s' bh'].
  cbn [fst snd] in *.
  destruct (isOk s') eqn:Hs'; cbn [negb fst snd] in *.
  2:{ injection Hok as ->. discriminate. }
  destruct Hcase as [-> Hall].
  repeat split; try assumption; try apply Hall.
  destruct (first_missing fs) as [[err msg]|]; [discriminate | reflexivity].
Qed.

End InitComposition.

Section MoreProperties.
Context `{K : Abi}.

(** The rules that can refuse a device whose directory is [dir], spelled
    out. *)
Lemma gate_passes_iff (dev : Device) (dir : option string) :
  first_failure unsupported_rules dev dir = None ↔
  (∃ path, dir = Some path) ∧
  IsAtLeastT dev = true ∧
  isAtLeastKernelVersion dev 4 9 0 = true ∧
  (IsAtLeastU dev = true → isAtLeastKernelVersion dev 4 14 0 = true) ∧
  (IsAtLeastV dev = true → isAtLeastKernelVersion dev 4 19 0 = true) ∧
  (IsAtLeastV dev = true → isKernel32Bit dev = true →
   isAtLeastKernelVersion dev 5 16 0 = false) ∧
  (isUserspace32bit dev = true → isAtLeastKernelVersion dev 6 2 0 = false) ∧
  (IsAtLeastU dev = true → dir = Some "/sys/fs/cgroup").
Proof.
  destruct dir as [path|].
  2:{ split; [intros H; vm_compute in H; discriminate|].
      intros ((p & [=]) & _). }
  cbn [first_failure unsupported_rules rule_kernel32 fires reason].
  rewrite (bool_decide_eq_false_2 (Some path = None)) by discriminate.
  destruct (IsAtLeastT dev); cbn [negb];
    [|split; [discriminate | intros (_ & [=] & _)]].
  destruct (isAtLeastKernelVersion dev 4 9 0); cbn [negb];
    [|split; [discriminate | intros (_ & _ & [=] & _)]].
  destruct (bool_decide_reflect (Some path = Some "/sys/fs/cgroup"))
    as [Hdir|Hdir]; cbn [negb];
    destruct (IsAtLeastU dev), (IsAtLeastV dev), (isKernel32Bit dev),
      (isUserspace32bit dev), (isAtLeastKernelVersion dev 4 14 0),
      (isAtLeastKernelVersion dev 4 19 0), (isAtLeastKernelVersion dev 5 16 0),
      (isAtLeastKernelVersion dev 6 2 0); cbn [negb andb];
    (split; [first [discriminate | intros _; repeat split; eauto; discriminate]
            | first [reflexivity
                    | intros (_ & _ & _ & H1 & H2 & H3 & H4 & H5);
                      first [ specialize (H1 eq_refl); discriminate
                            | specialize (H2 eq_refl); discriminate
                            | specialize (H3 eq_refl eq_refl); discriminate
                            | specialize (H4 eq_refl); discriminate
                            | specialize (H5 eq_refl); contradiction ]]]).
Qed.

(** X21. The requirements only grow with the platform tier: if every check
    passes on a device, it passes on any device of tier T or more that gives
    the same answers about the kernel and the userspace and whose tier is
    not higher. *)
Theorem gate_monotone_in_tier (high low : Device) (dir : option string) :
  first_failure unsupported_rules high dir = None →
  IsAtLeastT low = true →
  (IsAtLeastU low = true → IsAtLeastU high = true) →
  (IsAtLeastV low = true → IsAtLeastV high = true) →
  isAtLeastKernelVersion low = isAtLeastKernelVersion high →
  isKernel32Bit low = isKernel32Bit high →
  isUserspace32bit low = isUserspace32bit high →
  first_failure unsupported_rules low dir = None.
Proof.
  intros Hhigh HT HU HV Hk H32 Hu32.
  apply gate_passes_iff in Hhigh
    as (Hdir & _ & H49 & H414 & H419 & H516 & H62 & Hcanon).
  apply gate_passes_iff. rewrite Hk, H32, Hu32.
  repeat split; auto.
Qed.

(** X22. The entries of the attribution table weigh on the code
    [tagSocket] returns only through the room left in that table. On a
    handler whose attribution table has room, after an earlier
    [untagSocket] call on any socket [tagSocket] returns what it would have
    returned on the handler as it was, and so it does after an earlier
    [tagSocket] call on any socket that has left room in the table. The
    quota test reads the counting maps only. *)
Theorem tagSocket_code_depends_on_room_only (k k' : Kernel)
    (sockFd tag chargeUid realUid sockFd' tag' chargeUid' realUid' : Z)
    (bh : BpfHandler) :
  has_room (mCookieTagMap bh) →
  (has_room
     (mCookieTagMap (tagSocket k' sockFd' tag' chargeUid' realUid' bh).2) →
   (tagSocket k sockFd tag chargeUid realUid
      (tagSocket k' sockFd' tag' chargeUid' realUid' bh).2).1 =
   (tagSocket k sockFd tag chargeUid realUid bh).1) ∧
  (tagSocket k sockFd tag chargeUid realUid (untagSocket k' sockFd' bh).2).1 =
  (tagSocket k sockFd tag chargeUid realUid bh).1.
Proof.
  intros Hroom. split.
  - destruct (tagSocket_handler_cases k' sockFd' tag' chargeUid' realUid' bh)
      as [-> | [-> _]]; [reflexivity|].
    intros Hroom'. apply tagSocket_code_same_room.
    rewrite !noRoomFor_has_room by assumption. reflexivity.
  - destruct (untagSocket_handler_cases k' sockFd' bh) as [-> | ->];
      [reflexivity|].
    apply tagSocket_code_same_room.
    rewrite !noRoomFor_has_room; [reflexivity | exact Hroom |].
    unfold has_room in *. cbn [with_cookie_entries mCookieTagMap entries
      max_entries].
    pose proof (map_subseteq_size _ _
      (delete_subseteq (entries (mCookieTagMap bh))
         (getSocketCookie k' sockFd').1)).
    lia.
Qed.

End MoreProperties.

(** * Concrete runs of the further properties *)

Module MoreRuns.
Import Examples InitExamples.
#[local] Existing Instance android.
#[local] Existing Instance android_paths.

Lemma android_errno_positive : errno_positive android.
Proof. unfold errno_positive. cbn. lia. Defined.

Lemma tcp4_posix (cookie fd : Z) : cookie ≠ 0 → posix_kernel (tcp4 cookie) fd.
Proof.
  intros Hnz. split.
  - intros level name e H. cbn in H. destruct (name =? 39); discriminate.
  - intros Hz. contradiction.
Defined.

Lemma handler_posix (n : nat) : posix_tables (handler n).
Proof. unfold posix_tables. cbn. repeat split; intros e [=]. Defined.

Lemma healthy_posix : posix_progs healthy.
Proof. unfold posix_progs. cbn. repeat split; intros; discriminate. Defined.

Lemma without_posix (missing : string) : posix_progs (without missing).
Proof.
  unfold posix_progs. cbn. split; [|split].
  - intros; discriminate.
  - intros path e H. destruct (String.eqb path missing); [|discriminate].
    injection H as <-. discriminate.
  - intros; discriminate.
Defined.

Lemma pinned_all_posix : posix_pinned pinned_all.
Proof. unfold posix_pinned. cbn. repeat split; intros; discriminate. Defined.

Lemma pinned_no_permissions_posix : posix_pinned pinned_no_permissions.
Proof.
  unfold posix_pinned. cbn. split; [|split; [|split; [|split]]];
    try (intros; discriminate).
  intros e msg H. injection H as <- _. discriminate.
Defined.

Lemma tagged_3 : (tagSocket (tcp4 77) 3 5 10001 10001 (handler 3)).1 = 0.
Proof. vm_compute. reflexivity. Defined.

Lemma tagSocket_delegation_denied_witness :
  7000 ≠ 5000 ∧
  tagSocket (tcp4 77) 3 5 7000 5000 (handler 0) = (- EPERM, handler 0).
Proof.
  assert (Hne : 7000 ≠ 5000) by discriminate.
  split; [exact Hne|].
  apply (tagSocket_delegation_denied (tcp4 77) 3 5 7000 5000 (handler 0) Hne).
  - intros [H|[H|H]]; vm_compute in H; discriminate.
  - intros p H. vm_compute in H. discriminate.
Defined.

Lemma tagSocket_success_sound_witness :
  (tagSocket (tcp4 77) 3 5 10001 10001 (handler 3)).1 = 0 ∧
  (getSocketCookie (tcp4 77) 3).1 ≠ 0 ∧
  10001 ≠ AID_CLAT.
Proof.
  split; [exact tagged_3|].
  destruct (tagSocket_success_sound (tcp4 77) 3 5 10001 10001 (handler 3)
              android_errno_positive (tcp4_posix 77 3 ltac:(discriminate))
              (handler_posix 3) tagged_3)
    as (_ & _ & Hcookie & Hclat & _).
  split; [exact Hcookie | exact Hclat].
Defined.

Lemma tagSocket_last_write_wins_witness :
  errno_positive android ∧
  (tagSocket (tcp4 77) 3 9 10002 10002
     (tagSocket (tcp4 77) 3 5 10001 10001 (handler 3)).2).1 =
  (tagSocket (tcp4 77) 3 9 10002 10002 (handler 3)).1.
Proof.
  split; [exact android_errno_positive|].
  destruct (tagSocket_last_write_wins (tcp4 77) 3 5 10001 10001 9 10002 10002
              (handler 3) android_errno_positive
              (tcp4_posix 77 3 ltac:(discriminate)) (handler_posix 3))
    as [Hcode _].
  exact Hcode.
Defined.

Lemma tag_then_untag_witness :
  (tagSocket (tcp4 77) 3 5 10001 10001 (handler 3)).1 = 0 ∧
  untagSocket (tcp4 77) 3 (tagSocket (tcp4 77) 3 5 10001 10001 (handler 3)).2 =
  (0, handler 3).
Proof.
  split; [exact tagged_3|].
  destruct (tag_then_untag (tcp4 77) 3 5 10001 10001 (handler 3)
              android_errno_positive (tcp4_posix 77 3 ltac:(discriminate))
              (handler_posix 3) tagged_3)
    as [_ Hback].
  apply Hback. reflexivity.
Defined.

Lemma handler_tagged_posix : posix_tables handler_tagged.
Proof. unfold posix_tables. cbn. repeat split; intros e [=]. Defined.

Lemma untagSocket_success_removes_witness :
  entries (mCookieTagMap handler_tagged) !! 77
    = Some (UidTagValue.mk 10001 5) ∧
  (untagSocket (tcp4 77) 3 handler_tagged).1 = 0 ∧
  entries (mCookieTagMap (untagSocket (tcp4 77) 3 handler_tagged).2) !! 77
    = None.
Proof.
  assert (Hzero : (untagSocket (tcp4 77) 3 handler_tagged).1 = 0)
    by (vm_compute; reflexivity).
  split; [vm_compute; reflexivity|]. split; [exact Hzero|].
  destruct (untagSocket_success_removes (tcp4 77) 3 handler_tagged
              android_errno_positive (tcp4_posix 77 3 ltac:(discriminate))
              handler_tagged_posix Hzero)
    as (_ & _ & _ & Hgone).
  exact Hgone.
Defined.

Lemma scan_exact_counts_witness :
  refusal (mStatsMapA (handler 3)) = None ∧
  scan (mStatsMapA (handler 3)) 10001 = Ok (3, 3).
Proof.
  assert (Hr : refusal (mStatsMapA (handler 3)) = None) by reflexivity.
  assert (Hsmall : Z.of_nat (entryCount (mStatsMapA (handler 3))) < 2 ^ 32)
    by (vm_compute; reflexivity).
  split; [exact Hr|].
  destruct (scan_exact_counts (mStatsMapA (handler 3)) 10001 Hr Hsmall)
    as [Hscan _].
  rewrite Hscan. vm_compute. reflexivity.
Defined.

Lemma initPrograms_refused_attaches_nothing_witness :
  first_failure unsupported_rules (device_of TierU (4, 10, 0) false false)
    cgroup =
  Some "U+ platform with kernel version < 4.14.0 is unsupported" ∧
  (initPrograms_sys healthy (device_of TierU (4, 10, 0) false false) cgroup
     []).2 = [].
Proof.
  assert (Hfire : first_failure unsupported_rules
            (device_of TierU (4, 10, 0) false false) cgroup =
          Some "U+ platform with kernel version < 4.14.0 is unsupported")
    by reflexivity.
  split; [exact Hfire|].
  rewrite (initPrograms_refused_attaches_nothing healthy _ _ _ [] Hfire).
  reflexivity.
Defined.

Lemma initPrograms_checks_before_attaching_witness :
  XT_BPF_EGRESS_PROG_PATH ∈ checked_programs ∧
  retrieveProgram (without XT_BPF_EGRESS_PROG_PATH) XT_BPF_EGRESS_PROG_PATH
    = Error 2 ∧
  (initPrograms_sys (without XT_BPF_EGRESS_PROG_PATH) modern cgroup []).2 = [].
Proof.
  assert (Hin : XT_BPF_EGRESS_PROG_PATH ∈ checked_programs).
  { unfold checked_programs. rewrite !elem_of_cons. auto. }
  assert (Herr : retrieveProgram (without XT_BPF_EGRESS_PROG_PATH)
                   XT_BPF_EGRESS_PROG_PATH = Error 2)
    by (vm_compute; reflexivity).
  split; [exact Hin|]. split; [exact Herr|].
  destruct (initPrograms_checks_before_attaching
              (without XT_BPF_EGRESS_PROG_PATH) modern cgroup []
              XT_BPF_EGRESS_PROG_PATH 2 (without_posix _) Hin Herr)
    as [Hlog _].
  exact Hlog.
Defined.

Lemma modern_run :
  initPrograms_sys healthy modern cgroup [] =
  (Returned status_ok, [] ++ attach_plan modern).
Proof. vm_compute. reflexivity. Defined.

Lemma initPrograms_success_attaches_plan_witness :
  posix_progs healthy ∧
  first_failure unsupported_rules modern cgroup = None ∧
  length (attach_plan modern) = 6%nat.
Proof.
  split; [exact healthy_posix|].
  destruct (initPrograms_success_attaches_plan healthy modern cgroup []
              ([] ++ attach_plan modern) status_ok healthy_posix modern_run
              eq_refl)
    as (_ & _ & Hgate & _).
  split; [exact Hgate | reflexivity].
Defined.

Lemma initPrograms_attachments_prefix_witness :
  posix_progs (without BPF_INGRESS_PROG_PATH) ∧
  ∃ l, (initPrograms_sys (without BPF_INGRESS_PROG_PATH) modern cgroup []).2
         = [] ++ l ∧
       l `prefix_of` attach_plan modern.
Proof.
  split; [apply without_posix|].
  exact (initPrograms_attachments_prefix (without BPF_INGRESS_PROG_PATH)
           modern cgroup [] (without_posix _)).
Defined.

Lemma healthy_verified (dev : Device) (cg : Z) : verified healthy dev cg.
Proof. unfold verified. cbn. split; intros _; repeat split. Defined.

Lemma initPrograms_no_abort_when_verified_witness :
  posix_progs healthy ∧
  (initPrograms_sys healthy modern cgroup []).1 ≠ Aborted.
Proof.
  split; [exact healthy_posix|].
  apply (initPrograms_no_abort_when_verified healthy modern cgroup []
           healthy_posix).
  intros path cg _ _. apply healthy_verified.
Defined.

Lemma strict_planned (hook : bpf_attach_type) :
  planned_calls_succeed (strict hook) modern 7.
Proof.
  split; repeat constructor; exists 9; vm_compute; auto.
Defined.

Lemma initPrograms_aborts_on_failed_verification_witness :
  planned_calls_succeed (strict BPF_CGROUP_INET6_BIND) modern 7 ∧
  open_directory (strict BPF_CGROUP_INET6_BIND) "" = Error 2 ∧
  retrieveProgram (strict BPF_CGROUP_INET6_BIND) "" = Error 2 ∧
  first_failure unsupported_rules modern cgroup = None ∧
  open_directory (strict BPF_CGROUP_INET6_BIND) "/sys/fs/cgroup" = Ok 7 ∧
  (initPrograms_sys (strict BPF_CGROUP_INET6_BIND) modern cgroup []).1 = Aborted.
Proof.
  assert (Hgate : first_failure unsupported_rules modern cgroup = None)
    by reflexivity.
  assert (Hopen : open_directory (strict BPF_CGROUP_INET6_BIND)
                    "/sys/fs/cgroup" = Ok 7) by reflexivity.
  split; [apply strict_planned|].
  split; [reflexivity|]. split; [reflexivity|].
  split; [exact Hgate|]. split; [exact Hopen|].
  apply (initPrograms_aborts_on_failed_verification
           (strict BPF_CGROUP_INET6_BIND) modern "/sys/fs/cgroup" 7 []
           (strict_planned _) Hgate Hopen).
  intros [H419 _]. specialize (H419 eq_refl).
  destruct H419 as (_ & _ & _ & _ & H6). vm_compute in H6. discriminate.
Defined.

Lemma initMaps_first_missing_witness :
  posix_pinned pinned_no_permissions ∧
  (initMaps pinned_no_permissions fresh).1 =
  statusFromErrno 2 "uid permission map".
Proof.
  split; [exact pinned_no_permissions_posix|].
  destruct (initMaps_first_missing pinned_no_permissions fresh
              pinned_no_permissions_posix) as [Hstatus _].
  rewrite Hstatus. reflexivity.
Defined.

Lemma initMaps_cookie_map_last_witness :
  posix_pinned pinned_no_permissions ∧
  isValid (mCookieTagMap fresh) = false ∧
  (isOk (initMaps pinned_no_permissions fresh).1 = true ↔
   isValid (mCookieTagMap (initMaps pinned_no_permissions fresh).2) = true).
Proof.
  split; [exact pinned_no_permissions_posix|]. split; [reflexivity|].
  destruct (initMaps_cookie_map_last pinned_no_permissions fresh
              pinned_no_permissions_posix eq_refl) as [_ Hiff].
  exact Hiff.
Defined.

Lemma init_failure_blocks_tagging_witness :
  posix_pinned pinned_no_permissions ∧
  (BpfHandler_init healthy pinned_no_permissions modern cgroup fresh []).1.1
    = Returned (statusFromErrno 2 "uid permission map") ∧
  (tagSocket (tcp4 77) 3 5 10001 10001
     (BpfHandler_init healthy pinned_no_permissions modern cgroup fresh
        []).1.2).1 = - EPERM.
Proof.
  split; [exact pinned_no_permissions_posix|].
  split; [vm_compute; reflexivity|].
  assert (Hfailed :
    (BpfHandler_init healthy pinned_no_permissions modern cgroup fresh []).1.1
      ≠ Returned status_ok) by (vm_compute; discriminate).
  destruct (init_failure_blocks_tagging healthy pinned_no_permissions modern
              cgroup PER_UID_STATS_ENTRIES_LIMIT TOTAL_UID_STATS_ENTRIES_LIMIT
              [] pinned_no_permissions_posix Hfailed (tcp4 77) 3)
    as [Htag _].
  unfold fresh. rewrite Htag. reflexivity.
Defined.

Lemma init_success_witness :
  posix_progs healthy ∧ posix_pinned pinned_all ∧
  (BpfHandler_init healthy pinned_all modern cgroup fresh []).1.1
    = Returned status_ok ∧
  all_valid (BpfHandler_init healthy pinned_all modern cgroup fresh []).1.2.
Proof.
  assert (Hok : (BpfHandler_init healthy pinned_all modern cgroup fresh []).1.1
                = Returned status_ok) by (vm_compute; reflexivity).
  split; [exact healthy_posix|]. split; [exact pinned_all_posix|].
  split; [exact Hok|].
  destruct (init_success healthy pinned_all modern cgroup
              PER_UID_STATS_ENTRIES_LIMIT TOTAL_UID_STATS_ENTRIES_LIMIT []
              healthy_posix pinned_all_posix Hok)
    as (_ & _ & Hall & _).
  exact Hall.
Defined.

Lemma gate_monotone_in_tier_witness :
  first_failure unsupported_rules modern cgroup = None ∧
  first_failure unsupported_rules (device_of TierT (5, 10, 0) false false)
    cgroup = None.
Proof.
  assert (Hhigh : first_failure unsupported_rules modern cgroup = None)
    by reflexivity.
  split; [exact Hhigh|].
  apply (gate_monotone_in_tier modern
           (device_of TierT (5, 10, 0) false false) cgroup Hhigh);
    try reflexivity; intros H; discriminate H.
Defined.

Lemma tagSocket_code_depends_on_room_only_witness :
  has_room (mCookieTagMap (handler 3)) ∧
  has_room
    (mCookieTagMap (tagSocket (tcp4 78) 4 5 10001 10001 (handler 3)).2) ∧
  (tagSocket (tcp4 77) 3 9 10002 10002
     (tagSocket (tcp4 78) 4 5 10001 10001 (handler 3)).2).1 =
  (tagSocket (tcp4 77) 3 9 10002 10002 (handler 3)).1.
Proof.
  assert (Hroom : has_room (mCookieTagMap (handler 3)))
    by (vm_compute; reflexivity).
  assert (Hroom' : has_room
            (mCookieTagMap (tagSocket (tcp4 78) 4 5 10001 10001 (handler 3)).2))
    by (vm_compute; reflexivity).
  split; [exact Hroom|]. split; [exact Hroom'|].
  destruct (tagSocket_code_depends_on_room_only (tcp4 77) (tcp4 78)
              3 9 10002 10002 4 5 10001 10001 (handler 3) Hroom)
    as [Htag _].
  exact (Htag Hroom').
Defined.

End MoreRuns.
